(** * Lector de Comprobantes de Pago: the page component [src/app/page.tsx]

    A shallow embedding of the [Home] component: the JavaScript [Number]
    operations it relies on ([toFixed], [parseFloat], number-to-string,
    IEEE 754 multiplication and division), [formatBytes], the projection of
    a [DocumentResponse] to the rendered tree, and the event handlers
    ([activateCamera], [captureImage], [handleFileSelect],
    [processDocument]) as transitions of an explicit component state. *)

From Stdlib Require Import ZArith NArith QArith Qabs Qround Qpower Lia Lqa Bool.
From Stdlib Require Import Strings.String Strings.Ascii.
From Stdlib Require Import Floats.SpecFloat.
From stdpp Require Import base option list.

Local Open Scope string_scope.
Local Open Scope Z_scope.

#[local] Set Warnings "-register-all".

(** ** JavaScript numbers

    A [Number] is a binary64 value. [spec_float] of the Standard Library is
    the IEEE 754 datatype with one NaN; [SFmul] and [SFdiv] are the
    correctly rounded operations ([prec = 53], [emax = 1024]). *)
Module JSNumber.

Definition number := spec_float.

Definition prec : Z := 53.
Definition emax : Z := 1024.

Definition mul : number -> number -> number := SFmul prec emax.
Definition div : number -> number -> number := SFdiv prec emax.

(** The Number closest to an integer (ties to even), as for integer
    literals and for Web IDL integer attributes such as [File.size]. *)
Definition of_Z (z : Z) : number := binary_normalize prec emax z 0 false.
Definition of_N (n : N) : number := of_Z (Z.of_N n).

(** The Number closest to [p / q] for positive integers [p], [q]. *)
Definition of_ratio (s : bool) (p q : positive) : number :=
  let '(mz, ez, lz) := SFdiv_core_binary prec emax (Zpos p) 0 (Zpos q) 0 in
  binary_round_aux prec emax s mz ez lz.

(** [x === 0], and ToBoolean: [+0], [-0] and [NaN] are the falsy numbers. *)
Definition is_zero (x : number) : bool :=
  match x with S754_zero _ => true | _ => false end.

Definition is_nan (x : number) : bool :=
  match x with S754_nan => true | _ => false end.

Definition truthy (x : number) : bool := negb (is_zero x || is_nan x).

(** The real number a finite Number denotes. *)
Definition to_Q (x : number) : Q :=
  match x with
  | S754_finite s m e =>
      let v := (inject_Z (Zpos m) * Qpower 2 e)%Q in
      if s then Qopp v else v
  | _ => 0%Q
  end.

(** *** Decimal digits *)

Definition digit (d : Z) : ascii := ascii_of_N (48 + Z.to_N (d mod 10)).

(** The last [f] decimal digits of [n], most significant first. *)
Fixpoint low_digits (f : nat) (n : Z) : string :=
  match f with
  | O => EmptyString
  | S f' => low_digits f' (n / 10) ++ String (digit n) EmptyString
  end.

(** Decimal representation of a non-negative integer, no leading zeros
    (["0"] for zero). The fuel bounds the number of digits. *)
Fixpoint dec_fuel (fuel : nat) (n : Z) : string :=
  match fuel with
  | O => EmptyString
  | S fuel' =>
      if n <? 10 then String (digit n) EmptyString
      else dec_fuel fuel' (n / 10) ++ String (digit n) EmptyString
  end.

Definition dec (n : Z) : string := dec_fuel (S (Z.to_nat (Z.log2 n))) n.

(** *** Number::toString (radix 10)

    ECMAScript picks integers [n], [k], [s] with [k >= 1],
    [10^(k-1) <= s < 10^k], such that [s * 10^(n-k)] converts back to the
    number, [k] as small as possible, and among several [s] the one whose
    value is closest to the number. *)

(** A positive dyadic rational [num * 2^e] as a fraction. *)
Definition frac_of (num : Z) (e : Z) : Z * Z :=
  if 0 <=? e then (num * 2 ^ e, 1) else (num, 2 ^ (- e)).

(** [a/b] scaled by [10^(-q)]. *)
Definition scale10 (ab : Z * Z) (q : Z) : Z * Z :=
  let '(a, b) := ab in
  if 0 <=? q then (a, b * 10 ^ q) else (a * 10 ^ (- q), b).

(** The interval of reals that round to the finite positive binary64
    [m * 2^e], in units of [2^(e-2)]: lower bound, upper bound, and whether
    the bounds themselves round to it (ties to even). *)
Definition rounding_interval (m : positive) (e : Z) : Z * Z * bool :=
  let lo :=
    if (Zpos m =? 2 ^ (prec - 1)) && (emin prec emax <? e)
    then 4 * Zpos m - 1 else 4 * Zpos m - 2 in
  (lo, 4 * Zpos m + 2, Z.even (Zpos m)).

(** Smallest [n] with [a/b < 10^n], searched from an estimate. *)
Definition lt_pow10 (ab : Z * Z) (n : Z) : bool :=
  let '(a, b) := scale10 ab n in a <? b.

Fixpoint adjust_up (fuel : nat) (ab : Z * Z) (n : Z) : Z :=
  match fuel with
  | O => n
  | S fuel' => if lt_pow10 ab n then n else adjust_up fuel' ab (n + 1)
  end.

Fixpoint adjust_down (fuel : nat) (ab : Z * Z) (n : Z) : Z :=
  match fuel with
  | O => n
  | S fuel' => if lt_pow10 ab (n - 1) then adjust_down fuel' ab (n - 1) else n
  end.

Definition decimal_exponent (m : positive) (e : Z) : Z :=
  let ab := frac_of (Zpos m) e in
  let est := ((Z.log2 (Zpos m) + e) * 30103) / 100000 in
  adjust_down 4 ab (adjust_up 4 ab est).

(** The candidates with [k] digits at decimal exponent [n0]: the multiples
    of [10^(n0-k)] just below and just above the number, kept when they lie
    in the rounding interval; the closer one wins, the even one on a tie. *)
Definition candidate (m : positive) (e : Z) (n0 : Z) (k : Z) : option Z :=
  let '(lo, hi, incl) := rounding_interval m e in
  let q := n0 - k in
  let '(xa, xb) := scale10 (frac_of (4 * Zpos m) (e - 2)) q in
  let '(la, lb) := scale10 (frac_of lo (e - 2)) q in
  let '(ha, hb) := scale10 (frac_of hi (e - 2)) q in
  let sf := xa / xb in
  let sc := if xa mod xb =? 0 then sf else sf + 1 in
  let ok_lo (s : Z) := if incl then la <=? s * lb else la <? s * lb in
  let ok_hi (s : Z) := if incl then s * hb <=? ha else s * hb <? ha in
  let low_ok := ok_lo sf && (10 ^ (k - 1) <=? sf) in
  let high_ok := ok_hi sc in
  let dlow := xa - sf * xb in
  let dhigh := sc * xb - xa in
  match low_ok, high_ok with
  | true, true =>
      if dlow <? dhigh then Some sf
      else if dhigh <? dlow then Some sc
      else Some (if Z.even sf then sf else sc)
  | true, false => Some sf
  | false, true => Some sc
  | false, false => None
  end.

Fixpoint shortest (fuel : nat) (m : positive) (e : Z) (n0 : Z) (k : Z)
  : Z * Z * Z :=
  match fuel with
  | O => (n0, k, 0)
  | S fuel' =>
      match candidate m e n0 k with
      | Some s => if s =? 10 ^ k then (n0 + 1, k, 10 ^ (k - 1)) else (n0, k, s)
      | None => shortest fuel' m e n0 (k + 1)
      end
  end.

Definition repeat0 (n : Z) : string := low_digits (Z.to_nat n) 0.

Definition first_chars (n : Z) (s : string) : string := substring 0 (Z.to_nat n) s.
Definition drop_chars (n : Z) (s : string) : string :=
  substring (Z.to_nat n) (String.length s - Z.to_nat n) s.

Definition toString_pos (m : positive) (e : Z) : string :=
  let '(n, k, s) := shortest 17 m e (decimal_exponent m e) 1 in
  let ds := dec s in
  if (k <=? n) && (n <=? 21) then ds ++ repeat0 (n - k)
  else if (0 <? n) && (n <=? 21) then
    first_chars n ds ++ "." ++ drop_chars n ds
  else if (-6 <? n) && (n <=? 0) then
    "0." ++ repeat0 (- n) ++ ds
  else
    let ex := (if 0 <=? n - 1 then "+" else "-") ++ dec (Z.abs (n - 1)) in
    if k =? 1 then ds ++ "e" ++ ex
    else first_chars 1 ds ++ "." ++ drop_chars 1 ds ++ "e" ++ ex.

Definition toString (x : number) : string :=
  match x with
  | S754_nan => "NaN"
  | S754_zero _ => "0"
  | S754_infinity s => if s then "-Infinity" else "Infinity"
  | S754_finite s m e =>
      (if s then "-" else EmptyString) ++ toString_pos m e
  end.

(** *** Number.prototype.toFixed

    For a finite [x] below [10^21] in magnitude: with [n] the integer for
    which [n / 10^f - |x|] is closest to zero (the larger [n] of two), the
    digits of [n] with a point before the last [f] of them. *)

(** [fixed_digits f m e] is that [n], for [|x| = m * 2^e]. *)
Definition fixed_digits (f : nat) (m : positive) (e : Z) : Z :=
  let '(a, b) := frac_of (Zpos m * 10 ^ Z.of_nat f) e in
  (2 * a + b) / (2 * b).

Definition below_1e21 (m : positive) (e : Z) : bool :=
  let '(a, b) := frac_of (Zpos m) e in a <? 10 ^ 21 * b.

Definition fixed_string (f : nat) (n : Z) : string :=
  match f with
  | O => dec n
  | S _ => dec (n / 10 ^ Z.of_nat f) ++ "." ++ low_digits f n
  end.

Definition toFixed (f : nat) (x : number) : string :=
  match x with
  | S754_finite s m e =>
      if below_1e21 m e
      then (if s then "-" else EmptyString) ++ fixed_string f (fixed_digits f m e)
      else toString x
  | S754_zero _ => fixed_string f 0
  | _ => toString x
  end.

(** *** Rounding to two decimals, as a specification

    [round2 q] is the number of hundredths closest to the real [q], the
    larger of two equally close; [round2_string x] writes it with a point
    before the last two digits, for a Number in the range where [toFixed]
    prints digits: finite and below [10^21] in magnitude. *)

Definition round2 (q : Q) : Z := Qfloor (100 * q + (1 # 2)).

Definition fixed_range (x : number) : bool :=
  match x with
  | S754_zero _ => true
  | S754_finite _ m e => below_1e21 m e
  | _ => false
  end.

Definition round2_string (x : number) : string :=
  (match x with S754_finite true _ _ => "-" | _ => EmptyString end)
  ++ fixed_string 2 (round2 (Qabs (to_Q x))).

End JSNumber.

(** *** parseFloat

    The longest prefix of the trimmed string that is a decimal literal
    (sign, digits, fraction, exponent, or [Infinity]) converted to the
    closest Number; [NaN] when there is none. Only ASCII white space is
    trimmed. *)
Module JSParse.
Import JSNumber.

Definition is_digit (c : ascii) : bool :=
  ((48 <=? N_of_ascii c) && (N_of_ascii c <=? 57))%N.

Definition is_space (c : ascii) : bool :=
  let n := N_of_ascii c in
  (((9 <=? n) && (n <=? 13)) || (n =? 32))%N.

Fixpoint trim_start (s : string) : string :=
  match s with
  | String c r => if is_space c then trim_start r else s
  | EmptyString => s
  end.

(** Reads a run of digits: the value accumulated onto [acc], the number of
    digits read, and the rest of the string. *)
Fixpoint span_digits (s : string) (acc : Z) (cnt : Z) : Z * Z * string :=
  match s with
  | String c r =>
      if is_digit c
      then span_digits r (10 * acc + Z.of_N (N_of_ascii c - 48)) (cnt + 1)
      else (acc, cnt, s)
  | EmptyString => (acc, cnt, s)
  end.

Definition exponent_part (s : string) : Z :=
  match s with
  | String c r =>
      if (Ascii.eqb c "e" || Ascii.eqb c "E")%bool then
        let '(neg, r') :=
          match r with
          | String "-" r' => (true, r')
          | String "+" r' => (false, r')
          | _ => (false, r)
          end in
        let '(v, cnt, _) := span_digits r' 0 0 in
        if cnt =? 0 then 0 else if neg then - v else v
      else 0
  | EmptyString => 0
  end.

(** The Number closest to [d * 10^q]. *)
Definition of_decimal (neg : bool) (d : Z) (q : Z) : number :=
  match d with
  | Zpos p =>
      if 0 <=? q then binary_round prec emax neg (p * Z.to_pos (10 ^ q)) 0
      else of_ratio neg p (Z.to_pos (10 ^ (- q)))
  | _ => S754_zero neg
  end.

(** An unsigned decimal literal at the start of [s]. *)
Definition parse_unsigned (neg : bool) (s : string) : number :=
  if String.prefix "Infinity" s then S754_infinity neg else
  let '(ip, ni, r1) := span_digits s 0 0 in
  let '(d, nf, r2) :=
    match r1 with
    | String "." r => span_digits r ip 0
    | _ => (ip, 0, r1)
    end in
  if (ni =? 0) && (nf =? 0) then S754_nan
  else of_decimal neg d (exponent_part r2 - nf).

Definition parseFloat (input : string) : number :=
  match trim_start input with
  | String "-" r => parse_unsigned true r
  | String "+" r => parse_unsigned false r
  | s => parse_unsigned false s
  end.

(** *** The shape of a fixed-point string *)

Fixpoint all_digits (s : string) : bool :=
  match s with
  | String c r => is_digit c && all_digits r
  | EmptyString => true
  end.

(** One or more digits, a point, exactly two digits, and nothing else. *)
Fixpoint scan_fixed (seen : bool) (s : string) : bool :=
  match s with
  | String c r =>
      if is_digit c then scan_fixed true r
      else if Ascii.eqb c "." then
        seen && match r with
                | String d1 (String d2 EmptyString) =>
                    is_digit d1 && is_digit d2
                | _ => false
                end
      else false
  | EmptyString => false
  end.

Definition two_decimals (s : string) : bool :=
  match s with
  | String "-" r => scan_fixed false r
  | _ => scan_fixed false s
  end.

End JSParse.

(** ** [formatBytes] (lines 64-70)

    [Math.log] is implementation-approximated in ECMAScript; the quotient
    [Math.floor(Math.log(bytes) / Math.log(k))] with [k = 1024] is embedded
    as the exact floor of the base-1024 logarithm, and [Math.pow(k, i)] as
    the Number closest to [2^(10 i)]. Everything else is binary64
    arithmetic as above. *)
Module Format.
Import JSNumber JSParse.

(** The integer a Number holds, when it holds one. *)
Definition integer_value (x : number) : option Z :=
  match x with
  | S754_zero _ => Some 0
  | S754_finite s m e =>
      if 0 <=? e then Some ((if s then -1 else 1) * (Zpos m * 2 ^ e))
      else if Zpos m mod 2 ^ (- e) =? 0
           then Some ((if s then -1 else 1) * (Zpos m / 2 ^ (- e)))
           else None
  | _ => None
  end.

(** [Math.floor(Math.log(bytes) / Math.log(1024))], with the quotient of
    the two logarithms taken exactly: the floor of the logarithm to base
    1024. The engine divides two binary64 logarithms, a quotient within a
    few units in the last place (some [10^-15]) of the exact one, so that
    the two floors agree wherever the exact quotient is not that close
    below an integer. For a size below [2^40] that is not a power of 1024
    the exact quotient stays [10^-13] below the next integer; just below
    [2^50] it does not, and the engine's floor is the larger one there. *)
Definition floor_log1024 (bytes : number) : number :=
  match bytes with
  | S754_finite false m e => of_Z ((Z.log2 (Zpos m) + e) / 10)
  | S754_infinity false => S754_infinity false
  | S754_zero _ => S754_infinity true
  | _ => S754_nan
  end.

(** [Math.pow(1024, i)] for the values [floor_log1024] returns. *)
Definition pow1024 (i : number) : number :=
  match i with
  | S754_infinity false => S754_infinity false
  | S754_infinity true => S754_zero false
  | S754_nan => S754_nan
  | _ =>
      match integer_value i with
      | Some z => binary_round prec emax false 1 (10 * z)
      | None => S754_nan
      end
  end.

(** [sizes[i]]: the element at an integer index in range, else
    [undefined]. *)
Definition array_get (sizes : list string) (i : number) : option string :=
  match integer_value i with
  | Some z => if 0 <=? z then sizes !! Z.to_nat z else None
  | None => None
  end.

(** A [string | undefined] inside a template literal. *)
Definition template_undefined (o : option string) : string :=
  match o with Some s => s | None => "undefined" end.

Definition sizes : list string := ["Bytes"; "KB"; "MB"]%list.

Definition formatBytes (bytes : number) : string :=
  if is_zero bytes then "0 KB" else
  let i := floor_log1024 bytes in
  toString (parseFloat (toFixed 2 (div bytes (pow1024 i))))
    ++ " " ++ template_undefined (array_get sizes i).

End Format.

(** ** The extraction result and its rendering (lines 13-46, 247-378) *)
Module Render.
Import JSNumber.

Record DocumentItem := {
  descripcion : string;
  cantidad : number;
  precio_unitario : number;
  (** Any further numeric properties of the JSON object (a pre-computed
      total, say): the interface does not declare them. *)
  otros : list (string * number)
}.

Record Documento := { tipo : option string; doc_numero : option string }.
Record Emisor := { ruc : option string; razon_social : string }.
Record Cliente := { nombre : option string; documento : option Documento }.

Record Totales := {
  subtotal : option number;
  igv : option number;
  total : option number
}.

Record ExtractedData := {
  tipo_documento : string;
  numero : option string;
  fecha_emision : option string;
  emisor : Emisor;
  cliente : Cliente;
  items : list DocumentItem;
  totales : Totales
}.

(** [extractedData] and [confidence] are required by the interface, but the
    markup guards both ([result.data?.extractedData && ...]), so they are
    optional here; [None] is [undefined] or [null]. *)
Record DocumentData := {
  extractedData : option ExtractedData;
  confidence : option number;
  rawText : string
}.

(** The body of a 2xx response ([result.data] in [processDocument]): either
    envelope of the service, as one object with optional properties. *)
Record ResponseBody := {
  status : option string;
  message : option string;
  data : option DocumentData
}.

(** What React puts in the document: text and elements. [false], [null]
    and [undefined] children render nothing; a number child renders as its
    string. Attributes (class names) are left out. *)
Inductive node :=
  | Text (s : string)
  | Elem (tag : string) (children : list node).

(** [a || d] for [a : string | null]: the empty string is falsy too. *)
Definition or_string (a : option string) (d : string) : string :=
  match a with
  | Some (String c r) => String c r
  | _ => d
  end.

(** A [string | null] inside a template literal. *)
Definition template_null (a : option string) : string :=
  match a with Some s => s | None => "null" end.

(** [x ? `S/ ${x.toFixed(2)}` : placeholder] for [x : number | null]. *)
Definition money (x : option number) (placeholder : string) : string :=
  match x with
  | Some v => if truthy v then "S/ " ++ toFixed 2 v else placeholder
  | None => placeholder
  end.

(** A [number | null] that the guard [x ? ... : ...] takes for missing:
    [null], zero or [NaN]. *)
Definition falsy (x : option number) : Prop :=
  x = None \/ exists v, x = Some v /\ truthy v = false.

(** The label-and-value pair the markup repeats:
    [<div><p>label</p><p>value</p></div>]. *)
Definition field (label : string) (value : list node) : node :=
  Elem "div" [Elem "p" [Text label]; Elem "p" value]%list.

Definition documento_text (c : Cliente) : string :=
  match documento c with
  | Some d => template_null (tipo d) ++ ": " ++ template_null (doc_numero d)
  | None => "No detectado"
  end.

(** Lines 320-325. *)
Definition item_row (item : DocumentItem) : node :=
  Elem "tr" [
    Elem "td" [Text (toString (cantidad item))];
    Elem "td" [Text (descripcion item)];
    Elem "td" [Text "S/ "; Text (toFixed 2 (precio_unitario item))];
    Elem "td" [Text "S/ ";
               Text (toFixed 2 (mul (cantidad item) (precio_unitario item)))]
  ]%list.

(** Lines 305-331: [items && items.length > 0 && (...)]. *)
Definition items_section (ed : ExtractedData) : list node :=
  match items ed with
  | nil => nil
  | its =>
      [Elem "div" [
         Elem "h5" [Text "Items"];
         Elem "div" [
           Elem "table" [
             Elem "thead" [
               Elem "tr" [Elem "th" [Text "Cant."];
                          Elem "th" [Text "Descripción"];
                          Elem "th" [Text "P.Unit"];
                          Elem "th" [Text "Total"]]];
             Elem "tbody" (map item_row its)]]]]%list
  end.

(** Lines 333-361. *)
Definition totales_section (t : Totales) : node :=
  Elem "div" [
    Elem "h5" [Text "Totales"];
    Elem "div" [
      field "Subtotal:" [Text (money (subtotal t) "No detectado")];
      field "IGV:" [Text (money (igv t) "No aplica")];
      field "Total:" [Text (money (total t) "No detectado")]]]%list.

(** Lines 251-363. *)
Definition extracted_section (ed : ExtractedData) : node :=
  Elem "div" ([
    Elem "h4" [Text "Información Extraída:"];
    Elem "div" [
      Elem "h5" [Text "Información del Documento"];
      Elem "div" [
        field "Tipo:" [Text (tipo_documento ed)];
        field "Número:" [Text (or_string (numero ed) "No detectado")];
        field "Fecha de Emisión:"
          [Text (or_string (fecha_emision ed) "No detectada")]]];
    Elem "div" [
      Elem "h5" [Text "Información del Emisor"];
      Elem "div" [
        field "Razón Social:" [Text (razon_social (emisor ed))];
        field "RUC:" [Text (or_string (ruc (emisor ed)) "No detectado")]]];
    Elem "div" [
      Elem "h5" [Text "Información del Cliente"];
      Elem "div" [
        field "Nombre:" [Text (or_string (nombre (cliente ed)) "No detectado")];
        field "Documento:" [Text (documento_text (cliente ed))]]]]
    ++ items_section ed
    ++ [totales_section (totales ed)])%list.


(** *** Reading the tree *)

(** The text an element shows. *)
Fixpoint text_content (n : node) : string :=
  match n with
  | Text s => s
  | Elem _ cs =>
      (fix go (l : list node) : string :=
         match l with
         | nil => EmptyString
         | c :: l' => text_content c ++ go l'
         end) cs
  end.

Definition text_of : list node -> string :=
  fix go (l : list node) : string :=
    match l with
    | nil => EmptyString
    | c :: l' => text_content c ++ go l'
    end.

(** A [field]: two paragraphs, the first holding the label. *)
Definition as_field (label : string) (cs : list node) : option (list node) :=
  match cs with
  | [Elem t1 [Text l]; Elem t2 v]%list =>
      if String.eqb t1 "p" && String.eqb t2 "p" && String.eqb l label
      then Some v else None
  | _ => None
  end.

(** The value shown next to a label: the text of the second paragraph of
    the first [field] with that label, searched depth first. *)
Fixpoint lookup_field (label : string) (n : node) : option string :=
  match n with
  | Text _ => None
  | Elem _ cs =>
      match as_field label cs with
      | Some v => Some (text_of v)
      | None =>
          (fix go (l : list node) : option string :=
             match l with
             | nil => None
             | c :: l' =>
                 match lookup_field label c with
                 | Some s => Some s
                 | None => go l'
                 end
             end) cs
      end
  end.

Definition lookup_fields (label : string) : list node -> option string :=
  fix go (l : list node) : option string :=
    match l with
    | nil => None
    | c :: l' =>
        match lookup_field label c with
        | Some s => Some s
        | None => go l'
        end
    end.



(** The children of the first element with the given tag. *)
Fixpoint find_elem (tag : string) (n : node) : option (list node) :=
  match n with
  | Text _ => None
  | Elem t cs =>
      if String.eqb t tag then Some cs
      else
        (fix go (l : list node) : option (list node) :=
           match l with
           | nil => None
           | c :: l' =>
               match find_elem tag c with
               | Some r => Some r
               | None => go l'
               end
           end) cs
  end.

(** The rows of the items table, and the text of a cell of a row. *)
Definition table_rows (ed : ExtractedData) : list node :=
  match find_elem "tbody" (extracted_section ed) with
  | Some rows => rows
  | None => nil
  end.

Definition cell (k : nat) (row : node) : option string :=
  match row with
  | Elem _ cs => text_content <$> cs !! k
  | Text _ => None
  end.

End Render.

(** ** The component state and its handlers (lines 56-158)

    The hooks ([useState], [useRef]) become fields of one record, together
    with what the handlers act on outside the component: the streams
    [getUserMedia] has handed out, the asynchronous operations still
    pending, and the calls to [alert], [console.error] and [axios.post]. *)
Module Controller.
Import JSNumber Format Render.

Record File := { file_name : string; file_type : string; file_size : N }.

Record Blob := { blob_size : N; blob_type : string }.

Record PreviewFile := {
  name : string;
  type : string;
  size : string;
  preview : string
}.

(** [MediaStreamTrack.readyState]; [track.stop()] ends a track. *)
Inductive readyState := live | ended.

Abbreviation MediaStream := (list readyState).

(** The [<video>] element behind [videoRef]; [srcObject] refers to a stream
    by its position in the store of streams. *)
Record HTMLVideoElement := { srcObject : option nat }.

(** What a [catch] clause can receive: an [Error] (also [TypeError],
    [DOMException]), which has no [response] property, or the error axios
    rejects with, shaped as the [ApiError] interface. *)
Record ApiErrorData := { error_message : string }.
Record ApiErrorResponse := { error_data : option ApiErrorData }.

Inductive thrown :=
  | Error (msg : string)
  | AxiosError (response : option ApiErrorResponse).

Record request := {
  url : string;
  field_name : string;
  filename : string;
  payload : Blob
}.

(** Pending asynchronous operations. *)
Inductive task :=
  | GetUserMedia                     (* await getUserMedia({ video: true }) *)
  | ToBlob                           (* canvas.toBlob(callback, 'image/jpeg') *)
  | ReadAsDataURL (file : File)      (* reader.readAsDataURL(file) *)
  | Fetch (sel : PreviewFile)        (* await fetch(selectedFile.preview) *)
  | ResponseBlob (sel : PreviewFile) (* await response.blob() *)
  | Post (rq : request).             (* await axios.post(...) *)

Record state := {
  selectedFile : option PreviewFile;
  isProcessing : bool;
  result : option ResponseBody;
  isCameraActive : bool;
  videoRef : option HTMLVideoElement;
  streams : list MediaStream;
  tasks : list task;
  alerts : list string;
  console : list (string * thrown);
  requests : list request
}.

Definition initial : state :=
  {| selectedFile := None; isProcessing := false; result := None;
     isCameraActive := false; videoRef := None; streams := nil;
     tasks := nil; alerts := nil; console := nil; requests := nil |}.

Definition setSelectedFile (v : option PreviewFile) (st : state) : state :=
  {| selectedFile := v; isProcessing := isProcessing st; result := result st;
     isCameraActive := isCameraActive st; videoRef := videoRef st;
     streams := streams st; tasks := tasks st; alerts := alerts st;
     console := console st; requests := requests st |}.

Definition setIsProcessing (v : bool) (st : state) : state :=
  {| selectedFile := selectedFile st; isProcessing := v; result := result st;
     isCameraActive := isCameraActive st; videoRef := videoRef st;
     streams := streams st; tasks := tasks st; alerts := alerts st;
     console := console st; requests := requests st |}.

Definition setResult (v : option ResponseBody) (st : state) : state :=
  {| selectedFile := selectedFile st; isProcessing := isProcessing st;
     result := v; isCameraActive := isCameraActive st;
     videoRef := videoRef st; streams := streams st; tasks := tasks st;
     alerts := alerts st; console := console st; requests := requests st |}.

Definition setIsCameraActive (v : bool) (st : state) : state :=
  {| selectedFile := selectedFile st; isProcessing := isProcessing st;
     result := result st; isCameraActive := v; videoRef := videoRef st;
     streams := streams st; tasks := tasks st; alerts := alerts st;
     console := console st; requests := requests st |}.

Definition set_videoRef (v : option HTMLVideoElement) (st : state) : state :=
  {| selectedFile := selectedFile st; isProcessing := isProcessing st;
     result := result st; isCameraActive := isCameraActive st;
     videoRef := v; streams := streams st; tasks := tasks st;
     alerts := alerts st; console := console st; requests := requests st |}.

Definition set_streams (v : list MediaStream) (st : state) : state :=
  {| selectedFile := selectedFile st; isProcessing := isProcessing st;
     result := result st; isCameraActive := isCameraActive st;
     videoRef := videoRef st; streams := v; tasks := tasks st;
     alerts := alerts st; console := console st; requests := requests st |}.

Definition set_tasks (v : list task) (st : state) : state :=
  {| selectedFile := selectedFile st; isProcessing := isProcessing st;
     result := result st; isCameraActive := isCameraActive st;
     videoRef := videoRef st; streams := streams st; tasks := v;
     alerts := alerts st; console := console st; requests := requests st |}.

Definition alert (m : string) (st : state) : state :=
  {| selectedFile := selectedFile st; isProcessing := isProcessing st;
     result := result st; isCameraActive := isCameraActive st;
     videoRef := videoRef st; streams := streams st; tasks := tasks st;
     alerts := (alerts st ++ [m])%list; console := console st;
     requests := requests st |}.

Definition console_error (m : string) (e : thrown) (st : state) : state :=
  {| selectedFile := selectedFile st; isProcessing := isProcessing st;
     result := result st; isCameraActive := isCameraActive st;
     videoRef := videoRef st; streams := streams st; tasks := tasks st;
     alerts := alerts st; console := (console st ++ [(m, e)])%list;
     requests := requests st |}.

Definition axios_post (rq : request) (st : state) : state :=
  {| selectedFile := selectedFile st; isProcessing := isProcessing st;
     result := result st; isCameraActive := isCameraActive st;
     videoRef := videoRef st; streams := streams st;
     tasks := (tasks st ++ [Post rq])%list; alerts := alerts st;
     console := console st; requests := (requests st ++ [rq])%list |}.

Definition spawn (t : task) (st : state) : state :=
  set_tasks (tasks st ++ [t])%list st.

(** *** [handleFileSelect] and [handleFileUpload] (lines 72-92) *)

Definition handleFileSelect (file : File) (st : state) : state :=
  spawn (ReadAsDataURL file) st.

(** [reader.onloadend]; [url] is [reader.result]. *)
Definition onloadend (file : File) (url : string) (st : state) : state :=
  setSelectedFile
    (Some {| name := file_name file;
             type := file_type file;
             size := formatBytes (of_N (file_size file));
             preview := url |}) st.

Definition handleFileUpload (file : option File) (st : state) : state :=
  match file with
  | Some f => handleFileSelect f st
  | None => st
  end.

(** *** [activateCamera] (lines 94-105) *)

Definition activateCamera (st : state) : state := spawn GetUserMedia st.

(** The continuation once [getUserMedia] resolves with a stream of [n]
    live tracks: the stream exists from then on, whatever the handler does
    with it. *)
Definition activateCamera_resolved (n : nat) (st : state) : state :=
  let stream := length (streams st) in
  let st := set_streams (streams st ++ [replicate n live])%list st in
  match videoRef st with
  | Some _ =>
      setIsCameraActive true
        (set_videoRef (Some {| srcObject := Some stream |}) st)
  | None => st
  end.

Definition activateCamera_rejected (error : thrown) (st : state) : state :=
  alert "No se pudo acceder a la cámara"
    (console_error "Error al acceder a la cámara:" error st).

(** *** [captureImage] (lines 107-127)

    [ctx] tells whether [canvas.getContext('2d')] returned a context. *)

Definition stop_tracks (stream : option nat) (st : state) : state :=
  match stream with
  | Some s => set_streams (alter (map (fun _ => ended)) s (streams st)) st
  | None => st
  end.

Definition captureImage (ctx : bool) (st : state) : state :=
  match videoRef st with
  | Some video =>
      let st := if ctx then spawn ToBlob st else st in
      let st := stop_tracks (srcObject video) st in
      setIsCameraActive false st
  | None => st
  end.

(** The callback given to [canvas.toBlob]. *)
Definition toBlob_callback (blob : option Blob) (st : state) : state :=
  match blob with
  | Some b =>
      handleFileSelect
        {| file_name := "captura.jpg"; file_type := "image/jpeg";
           file_size := blob_size b |} st
  | None => st
  end.

(** *** [processDocument] (lines 129-158) *)

(** [apiError.response?.data?.message || 'Error al procesar el documento']. *)
Definition alert_message (error : thrown) : string :=
  or_string
    match error with
    | AxiosError (Some r) =>
        match error_data r with
        | Some d => Some (error_message d)
        | None => None
        end
    | _ => None
    end
    "Error al procesar el documento".

(** The [catch] clause followed by [finally]. *)
Definition processDocument_catch (error : thrown) (st : state) : state :=
  setIsProcessing false
    (alert (alert_message error)
       (console_error "Error al procesar el documento:" error st)).

Definition processDocument (st : state) : state :=
  match selectedFile st with
  | None => st
  | Some sel => spawn (Fetch sel) (setIsProcessing true st)
  end.

Definition processDocument_fetched (sel : PreviewFile) (st : state) : state :=
  spawn (ResponseBlob sel) st.

Definition processDocument_blob (sel : PreviewFile) (blob : Blob) (st : state)
  : state :=
  axios_post
    {| url := "http://localhost:3001/documents/upload";
       field_name := "file"; filename := name sel; payload := blob |} st.

(** [a === b] for [a : string | undefined] and a string [b]. *)
Definition strict_eq (a : option string) (b : string) : bool :=
  match a with
  | Some s => String.eqb s b
  | None => false
  end.

(** [new Error(message)]: without a message the error's message is the
    empty string. *)
Definition new_Error (message : option string) : thrown :=
  Error match message with Some m => m | None => EmptyString end.

(** After [axios.post] resolved with a 2xx response whose body is [body]. *)
Definition processDocument_response (body : ResponseBody) (st : state)
  : state :=
  if strict_eq (status body) "error"
  then processDocument_catch (new_Error (message body)) st
  else setIsProcessing false (setResult (Some body) st).

(** *** Events

    What the markup lets through: [Cámara] is disabled while the camera is
    active, [Capturar] exists only while it is, [Procesar Documento] exists
    only with a selected file and is disabled while processing. A pending
    operation settles with an outcome chosen by the environment. The
    outcomes are those in which the platform hands over what was asked
    for, or rejects: [LoadEnd] is a read that delivered its data URL, and
    [Responded] a 2xx response whose body is a JSON object. A read that
    ends in error (after which [reader.result] is null) and a 2xx response
    with a body that is not an object are not among them. *)

Inductive outcome :=
  | Rejected (error : thrown)
  | Stream (n : nat)
  | Encoded (blob : option Blob)
  | LoadEnd (url : string)
  | Fetched
  | BlobRead (blob : Blob)
  | Responded (body : ResponseBody).

Inductive event :=
  | ClickCamara
  | ClickCapturar (ctx : bool)
  | ClickProcesar
  | FileInputChange (file : option File)
  | Settle (i : nat) (o : outcome).

Definition settle (t : task) (o : outcome) : option (state -> state) :=
  match t, o with
  | GetUserMedia, Stream n => Some (activateCamera_resolved n)
  | GetUserMedia, Rejected e => Some (activateCamera_rejected e)
  | ToBlob, Encoded b => Some (toBlob_callback b)
  | ReadAsDataURL f, LoadEnd u => Some (onloadend f u)
  | Fetch sel, Fetched => Some (processDocument_fetched sel)
  | Fetch _, Rejected e => Some (processDocument_catch e)
  | ResponseBlob sel, BlobRead b => Some (processDocument_blob sel b)
  | ResponseBlob _, Rejected e => Some (processDocument_catch e)
  | Post _, Responded body => Some (processDocument_response body)
  | Post _, Rejected e => Some (processDocument_catch e)
  | _, _ => None
  end.

Definition handle (ev : event) (st : state) : state :=
  match ev with
  | ClickCamara => if isCameraActive st then st else activateCamera st
  | ClickCapturar ctx => if isCameraActive st then captureImage ctx st else st
  | ClickProcesar =>
      match selectedFile st with
      | Some _ => if isProcessing st then st else processDocument st
      | None => st
      end
  | FileInputChange file => handleFileUpload file st
  | Settle i o =>
      match tasks st !! i with
      | Some t =>
          match settle t o with
          | Some k => k (set_tasks (delete i (tasks st)) st)
          | None => st
          end
      | None => st
      end
  end.

(** Re-rendering after an event: the [<video>] element is in the document
    exactly when [isCameraActive], and React sets [videoRef.current] when
    it mounts the element and clears it when it removes it. *)
Definition commit (st : state) : state :=
  if isCameraActive st then
    match videoRef st with
    | Some _ => st
    | None => set_videoRef (Some {| srcObject := None |}) st
    end
  else set_videoRef None st.

Definition step (st : state) (ev : event) : state := commit (handle ev st).

Definition run (evs : list event) (st : state) : state :=
  fold_left step evs st.

(** *** Observations *)

Definition all_ended (s : MediaStream) : bool :=
  forallb (fun t => match t with ended => true | live => false end) s.

(** The stream the video element shows, if any. *)
Definition bound_stream (st : state) : option nat :=
  match videoRef st with
  | Some v => srcObject v
  | None => None
  end.

(** Invocations of [processDocument] that have not reached [finally]. *)
Definition is_submission (t : task) : bool :=
  match t with
  | Fetch _ | ResponseBlob _ | Post _ => true
  | _ => false
  end.

Definition in_flight (st : state) : nat :=
  length (filter (fun t => is_submission t = true) (tasks st)).

(** A state the component shows between two events. *)
Definition rendered (st : state) : Prop := commit st = st.

(** The busy flag counts the invocations of [processDocument] that have
    not finished. *)
Definition single_flight (st : state) : Prop :=
  in_flight st = if isProcessing st then 1%nat else 0%nat.

(** No camera session, and every track ever handed out still live. *)
Definition camera_unused (st : state) : Prop :=
  isCameraActive st = false
  /\ videoRef st = None
  /\ Forall (Forall (eq live)) (streams st).

(** Every track of the stream has ended. *)
Definition stopped (st : state) (stream : nat) : Prop :=
  exists s, streams st !! stream = Some s /\ all_ended s = true.

End Controller.

(** ** Concrete inputs *)
Module Examples.
Import JSNumber JSParse Format Render Controller.

Definition receipt : File :=
  {| file_name := "recibo.jpg"; file_type := "image/jpeg";
     file_size := 500000 |}.

Definition receipt_url : string := "data:image/jpeg;base64,/9j/4AAQ".

Definition receipt_blob : Blob :=
  {| blob_size := 500000; blob_type := "image/jpeg" |}.

Definition receipt_preview : PreviewFile :=
  {| name := "recibo.jpg"; type := "image/jpeg"; size := "488.28 KB";
     preview := receipt_url |}.

(** The operator picks a file, the read completes, and the submission is
    carried up to the point where [axios.post] is pending. *)
Definition choose_file : list event :=
  [FileInputChange (Some receipt); Settle 0 (LoadEnd receipt_url)]%list.

Definition submit : list event :=
  (choose_file
   ++ [ClickProcesar; Settle 0 Fetched; Settle 0 (BlobRead receipt_blob)])%list.

(** HTTP 200 with the error envelope [{status:"error", message:"bad file"}]. *)
Definition bad_file : ResponseBody :=
  {| status := Some "error"; message := Some "bad file"; data := None |}.

(** A camera session: the flag set, the video element mounted and showing
    the one stream there is, its only track live. *)
Definition camera_on : state :=
  {| selectedFile := None; isProcessing := false; result := None;
     isCameraActive := true; videoRef := Some {| srcObject := Some 0%nat |};
     streams := [[live]]%list; tasks := nil; alerts := nil; console := nil;
     requests := nil |}.


(** Three sweets at half a céntimo each. *)
Definition half_cents : DocumentItem :=
  {| descripcion := "caramelo"; cantidad := of_Z 3;
     precio_unitario := parseFloat "0.005"; otros := nil |}.

(** A receipt on which little was detected: two items, the second with a
    pre-computed total that disagrees with its quantity and price; a total
    of 12.5 and a subtotal of zero. *)
Definition partial_receipt : ExtractedData :=
  {| tipo_documento := "BOLETA";
     numero := None;
     fecha_emision := None;
     emisor := {| ruc := None; razon_social := "BODEGA" |};
     cliente := {| nombre := None; documento := None |};
     items :=
       [ {| descripcion := "pan"; cantidad := of_Z 3;
            precio_unitario := parseFloat "0.35"; otros := nil |};
         {| descripcion := "leche"; cantidad := of_Z 2;
            precio_unitario := parseFloat "1.005";
            otros := [("total", of_Z 99)] |} ]%list;
     totales := {| subtotal := Some (of_Z 0); igv := None;
                   total := Some (parseFloat "12.5") |} |}.

(** The same receipt without items and with a total of zero. *)
Definition zero_total_receipt : ExtractedData :=
  {| tipo_documento := "BOLETA";
     numero := None;
     fecha_emision := None;
     emisor := {| ruc := None; razon_social := "BODEGA" |};
     cliente := {| nombre := None; documento := None |};
     items := nil;
     totales := {| subtotal := None; igv := None;
                   total := Some (of_Z 0) |} |}.


End Examples.

(** ** What the operator can observe of a session

    The fields of the state other than the camera's, which re-rendering
    leaves alone, and counters over a sequence of events. *)
Module Session.
Import JSNumber JSParse Format Render Controller Examples.

Definition session (st : state)
  : option PreviewFile * bool * option ResponseBody * list task
    * list string * list request :=
  (selectedFile st, isProcessing st, result st, tasks st, alerts st,
   requests st).

(** Clicks on [Procesar Documento], whether the button took them or not. *)
Definition is_procesar (ev : event) : bool :=
  match ev with ClickProcesar => true | _ => false end.

Definition clicks (evs : list event) : nat :=
  length (filter (fun ev => is_procesar ev = true) evs).

(** Invocations of [processDocument] that have not yet called
    [axios.post]. *)
Definition before_post (t : task) : bool :=
  match t with
  | Fetch _ | ResponseBlob _ => true
  | _ => false
  end.

Definition not_yet_posted (st : state) : nat :=
  length (filter (fun t => before_post t = true) (tasks st)).

(** Where [processDocument] posts. *)
Definition to_upload_endpoint (rq : request) : Prop :=
  url rq = "http://localhost:3001/documents/upload" /\ field_name rq = "file".

(** The session once the receipt has been chosen and read. *)
Definition ready : state :=
  {| selectedFile := Some receipt_preview; isProcessing := false;
     result := None; isCameraActive := false; videoRef := None;
     streams := nil; tasks := nil; alerts := nil; console := nil;
     requests := nil |}.

(** A second file, and a customer document with both parts. *)
Definition invoice_pdf : File :=
  {| file_name := "factura.pdf"; file_type := "application/pdf";
     file_size := 1536 |}.

Definition invoice_url : string := "data:application/pdf;base64,JVBERi0x".

Definition dni : Documento :=
  {| tipo := Some "DNI"; doc_numero := Some "40506070" |}.

Definition identified_receipt : ExtractedData :=
  {| tipo_documento := "FACTURA";
     numero := Some "F001-000123";
     fecha_emision := Some "2024-05-17";
     emisor := {| ruc := Some "20123456789"; razon_social := "BODEGA" |};
     cliente := {| nombre := Some "ANA"; documento := Some dni |};
     items :=
       [ {| descripcion := "pan"; cantidad := of_Z 3;
            precio_unitario := parseFloat "0.35"; otros := nil |} ]%list;
     totales := {| subtotal := None; igv := None; total := None |} |}.

(** A success envelope. *)
Definition extracted : ResponseBody :=
  {| status := None; message := None;
     data := Some {| extractedData := Some identified_receipt;
                     confidence := Some (of_Z 90); rawText := "BODEGA" |} |}.



End Session.

(** * Properties of the number operations *)
Section NumberFacts.
Import JSNumber JSParse.

Lemma is_digit_digit (d : Z) : is_digit (digit d) = true.
Proof.
  unfold digit. pose proof (Z.mod_pos_bound d 10 eq_refl) as H.
  assert (d mod 10 = 0 \/ d mod 10 = 1 \/ d mod 10 = 2 \/ d mod 10 = 3
          \/ d mod 10 = 4 \/ d mod 10 = 5 \/ d mod 10 = 6 \/ d mod 10 = 7
          \/ d mod 10 = 8 \/ d mod 10 = 9) as Hc by lia.
  repeat (destruct Hc as [-> | Hc]; [reflexivity|]). rewrite Hc. reflexivity.
Qed.

Lemma all_digits_app (a b : string) :
  all_digits (a ++ b) = all_digits a && all_digits b.
Proof.
  induction a as [|c a IH]; cbn; [reflexivity|].
  rewrite IH. apply andb_assoc.
Qed.

Lemma dec_fuel_digits (fuel : nat) (n : Z) :
  all_digits (dec_fuel fuel n) = true.
Proof.
  revert n. induction fuel as [|fuel IH]; intros n; cbn; [reflexivity|].
  destruct (n <? 10).
  - cbn. rewrite is_digit_digit. reflexivity.
  - rewrite all_digits_app, IH. cbn. rewrite is_digit_digit. reflexivity.
Qed.

Lemma dec_digits (n : Z) : all_digits (dec n) = true.
Proof. apply dec_fuel_digits. Qed.

Lemma dec_nonempty (n : Z) : dec n <> EmptyString.
Proof.
  unfold dec. cbn [dec_fuel]. destruct (n <? 10); [discriminate|].
  destruct (dec_fuel _ _); discriminate.
Qed.

Lemma low_digits_two (n : Z) :
  low_digits 2 n
  = String (digit (n / 10)) (String (digit n) EmptyString).
Proof. reflexivity. Qed.

Lemma scan_fixed_digits (ds : string) (d1 d2 : ascii) (seen : bool) :
  all_digits ds = true ->
  is_digit d1 = true -> is_digit d2 = true ->
  (seen = true \/ ds <> EmptyString) ->
  scan_fixed seen (ds ++ String "." (String d1 (String d2 EmptyString)))
  = true.
Proof.
  intros Hds H1 H2. revert seen.
  induction ds as [|c ds IH]; intros seen Hseen; cbn.
  - destruct Hseen as [-> | Hne]; [|congruence]. cbn.
    rewrite H1, H2. reflexivity.
  - cbn in Hds. apply andb_prop in Hds as [Hc Hds]. rewrite Hc.
    apply IH; auto.
Qed.

(** A fixed-point number with two fraction digits has the shape
    digits-point-digit-digit. *)
Lemma fixed_string_two_decimals (n : Z) :
  scan_fixed false (fixed_string 2 n) = true.
Proof.
  unfold fixed_string. rewrite low_digits_two.
  apply scan_fixed_digits;
    auto using dec_digits, is_digit_digit, dec_nonempty.
Qed.

Lemma fixed_string_head (n : Z) :
  exists c r, fixed_string 2 n = String c r /\ is_digit c = true.
Proof.
  unfold fixed_string. pose proof (dec_digits (n / 10 ^ Z.of_nat 2)) as Hd.
  pose proof (dec_nonempty (n / 10 ^ Z.of_nat 2)) as Hn.
  destruct (dec _) as [|c r]; [congruence|].
  cbn in Hd. apply andb_prop in Hd as [Hc _].
  exists c. eexists. split; [reflexivity|exact Hc].
Qed.

Lemma toFixed_two_decimals (x : number) :
  fixed_range x = true -> two_decimals (toFixed 2 x) = true.
Proof.
  destruct x as [s | s | | s m e]; cbn [fixed_range]; try discriminate.
  - intros _. reflexivity.
  - intros Hr. cbn [toFixed]. rewrite Hr.
    destruct s.
    + cbn [append two_decimals]. apply fixed_string_two_decimals.
    + cbn [append]. unfold two_decimals.
      destruct (fixed_string_head (fixed_digits 2 m e)) as (c & r & Heq & Hc).
      pose proof (fixed_string_two_decimals (fixed_digits 2 m e)) as Hs.
      rewrite Heq in *.
      destruct (Ascii.eqb_spec c "-") as [->|Hne]; [discriminate Hc|].
      destruct c as [[] [] [] [] [] [] [] []]; try exact Hs; congruence.
Qed.

(** The model of the Number operations on values whose JavaScript results
    are well known. *)
Example toString_tenth : toString (parseFloat "0.1") = "0.1".
Proof. vm_compute. reflexivity. Qed.

Example toString_inexact_product :
  toString (mul (parseFloat "0.1") (of_Z 3)) = "0.30000000000000004".
Proof. vm_compute. reflexivity. Qed.

Example toString_exponent : toString (parseFloat "1e21") = "1e+21".
Proof. vm_compute. reflexivity. Qed.

Example toString_smallest : toString (S754_finite false 1 (-1074)) = "5e-324".
Proof. vm_compute. reflexivity. Qed.

Example toFixed_below_half : toFixed 2 (parseFloat "1.005") = "1.00".
Proof. vm_compute. reflexivity. Qed.

Example toFixed_negative : toFixed 2 (parseFloat "-0.001") = "-0.00".
Proof. vm_compute. reflexivity. Qed.

Example toFixed_huge : toFixed 2 (parseFloat "1e21") = "1e+21".
Proof. vm_compute. reflexivity. Qed.

End NumberFacts.


(** * Reading back what [toFixed(2)] wrote *)
Section ReadBack.
Import JSNumber JSParse.

Lemma digit_value (d : Z) :
  Z.of_N (N_of_ascii (digit d) - 48) = d mod 10.
Proof.
  unfold digit. pose proof (Z.mod_pos_bound d 10 eq_refl) as H.
  assert (d mod 10 = 0 \/ d mod 10 = 1 \/ d mod 10 = 2 \/ d mod 10 = 3
          \/ d mod 10 = 4 \/ d mod 10 = 5 \/ d mod 10 = 6 \/ d mod 10 = 7
          \/ d mod 10 = 8 \/ d mod 10 = 9) as Hc by lia.
  repeat (destruct Hc as [-> | Hc]; [reflexivity|]). rewrite Hc. reflexivity.
Qed.

Lemma span_digits_digit (d : Z) (rest : string) (acc cnt : Z) :
  span_digits (String (digit d) rest) acc cnt
  = span_digits rest (10 * acc + d mod 10) (cnt + 1).
Proof. cbn [span_digits]. rewrite is_digit_digit, digit_value. reflexivity. Qed.

Lemma append_assoc (a b c : string) : (a ++ b) ++ c = a ++ (b ++ c).
Proof. induction a as [|x a IH]; cbn; [reflexivity|]. rewrite IH. reflexivity. Qed.

(** Reading the digits [dec] wrote gives the number back. *)
Lemma span_digits_dec_fuel (fuel : nat) (n : Z) (rest : string) (acc cnt : Z) :
  0 <= n < 10 ^ Z.of_nat (S fuel) ->
  exists k, 1 <= k
    /\ span_digits (dec_fuel (S fuel) n ++ rest) acc cnt
       = span_digits rest (acc * 10 ^ k + n) (cnt + k).
Proof.
  revert n rest acc cnt.
  induction fuel as [|fuel IH]; intros n rest acc cnt Hn;
    cbn [dec_fuel]; destruct (n <? 10) eqn:Hlt.
  - apply Z.ltb_lt in Hlt. exists 1. split; [lia|].
    cbn [append]. rewrite span_digits_digit.
    rewrite Z.mod_small by lia. f_equal. lia.
  - apply Z.ltb_ge in Hlt. change (10 ^ Z.of_nat 1) with 10 in Hn. lia.
  - apply Z.ltb_lt in Hlt. exists 1. split; [lia|].
    cbn [append]. rewrite span_digits_digit.
    rewrite Z.mod_small by lia. f_equal. lia.
  - apply Z.ltb_ge in Hlt.
    assert (Hdiv : 0 <= n / 10 < 10 ^ Z.of_nat (S fuel)).
    { split; [apply Z.div_pos; lia|].
      apply Z.div_lt_upper_bound; [lia|].
      rewrite (Nat2Z.inj_succ (S fuel)), Z.pow_succ_r in Hn by lia. lia. }
    rewrite append_assoc. cbn [append].
    destruct (IH (n / 10) (String (digit n) rest) acc cnt Hdiv)
      as (k & Hk & Heq).
    exists (k + 1). split; [lia|].
    cbn [dec_fuel] in Heq. rewrite Heq, span_digits_digit. f_equal.
    + rewrite Z.pow_add_r by lia.
      pose proof (Z.div_mod n 10 ltac:(lia)). lia.
    + lia.
Qed.

Lemma span_digits_dec (n : Z) (rest : string) (acc cnt : Z) :
  0 <= n ->
  exists k, 1 <= k
    /\ span_digits (dec n ++ rest) acc cnt
       = span_digits rest (acc * 10 ^ k + n) (cnt + k).
Proof.
  intros Hn. apply span_digits_dec_fuel. split; [exact Hn|].
  destruct (Z.eq_dec n 0) as [->|Hne]; [cbn; lia|].
  assert (Hl : n < 2 ^ (Z.log2 n + 1))
    by (apply Z.log2_spec; lia).
  pose proof (Z.log2_nonneg n) as Hnn.
  rewrite Nat2Z.inj_succ, Z2Nat.id by lia.
  apply Z.lt_le_trans with (1 := Hl).
  apply Z.pow_le_mono_l. lia.
Qed.

Lemma digit_not_special (c : ascii) :
  is_digit c = true ->
  is_space c = false
  /\ c <> "-"%char /\ c <> "+"%char /\ c <> "I"%char /\ c <> "."%char.
Proof.
  destruct c as [[] [] [] [] [] [] [] []]; cbn; intros H;
    try discriminate H; repeat split; discriminate.
Qed.

(** A fixed-point string of [n] hundredths reads as the Number closest to
    [n / 100]. *)
Lemma parse_unsigned_fixed_string (neg : bool) (n : Z) :
  0 <= n -> parse_unsigned neg (fixed_string 2 n) = of_decimal neg n (- 2).
Proof.
  intros Hn. unfold fixed_string.
  change (10 ^ Z.of_nat 2) with 100. rewrite low_digits_two.
  assert (Hq : 0 <= n / 100) by (apply Z.div_pos; lia).
  pose proof (dec_digits (n / 100)) as Hd.
  pose proof (dec_nonempty (n / 100)) as Hne.
  destruct (span_digits_dec (n / 100)
              ("." ++ String (digit (n / 10)) (String (digit n) EmptyString))
              0 0 Hq) as (k & Hk & Hspan).
  unfold parse_unsigned.
  destruct (dec (n / 100)) as [|c r] eqn:Hdec; [congruence|].
  cbn in Hd. apply andb_prop in Hd as [Hc _].
  destruct (digit_not_special c Hc) as (_ & _ & _ & HI & _).
  assert (Hpre : String.prefix "Infinity"
            (String c r ++ "."
             ++ String (digit (n / 10)) (String (digit n) EmptyString))
          = false).
  { cbn [append String.prefix].
    destruct (ascii_dec "I" c) as [<-|]; [congruence|reflexivity]. }
  rewrite Hpre, Hspan.
  cbn [append span_digits]. change (is_digit ".") with false. cbv iota.
  rewrite !span_digits_digit. cbn [span_digits].
  replace (0 * 10 ^ k + n / 100) with (n / 100) by lia.
  replace (0 + k =? 0) with false by (symmetry; apply Z.eqb_neq; lia).
  cbn [andb exponent_part].
  replace (10 * (10 * (n / 100) + (n / 10) mod 10) + n mod 10) with n.
  2:{ pose proof (Z.div_mod n 10 ltac:(lia)).
      pose proof (Z.div_mod (n / 10) 10 ltac:(lia)).
      rewrite Z.div_div in * by lia. change (10 * 10) with 100 in *. lia. }
  reflexivity.
Qed.

Lemma fixed_digits_nonneg (f : nat) (m : positive) (e : Z) :
  0 <= fixed_digits f m e.
Proof.
  unfold fixed_digits, frac_of.
  destruct (0 <=? e) eqn:He.
  - apply Z.div_pos; [|lia].
    assert (0 <= Zpos m * 10 ^ Z.of_nat f * 2 ^ e) by
      (apply Z.leb_le in He; apply Z.mul_nonneg_nonneg;
       [apply Z.mul_nonneg_nonneg; [lia|apply Z.pow_nonneg; lia]
       |apply Z.pow_nonneg; lia]).
    lia.
  - apply Z.leb_gt in He.
    assert (0 < 2 ^ (- e)) by (apply Z.pow_pos_nonneg; lia).
    assert (0 <= Zpos m * 10 ^ Z.of_nat f)
      by (apply Z.mul_nonneg_nonneg; [lia|apply Z.pow_nonneg; lia]).
    apply Z.div_pos; lia.
Qed.

(** [parseFloat] reads what [toFixed(2)] wrote as the Number closest to
    the printed hundredths, with the sign of the original. *)
Lemma parseFloat_toFixed (s : bool) (m : positive) (e : Z) :
  below_1e21 m e = true ->
  parseFloat (toFixed 2 (S754_finite s m e))
  = of_decimal s (fixed_digits 2 m e) (- 2).
Proof.
  intros Hr. cbn [toFixed]. rewrite Hr.
  pose proof (fixed_digits_nonneg 2 m e) as Hn.
  destruct s.
  - unfold parseFloat. cbn [append trim_start].
    change (is_space "-") with false. cbv iota.
    apply parse_unsigned_fixed_string, Hn.
  - cbn [append]. unfold parseFloat.
    destruct (fixed_string_head (fixed_digits 2 m e)) as (c & r & Heq & Hc).
    destruct (digit_not_special c Hc) as (Hsp & Hm & Hp & _).
    rewrite <- (parse_unsigned_fixed_string false _ Hn).
    rewrite Heq. cbn [trim_start]. rewrite Hsp.
    destruct c as [[] [] [] [] [] [] [] []]; try reflexivity; congruence.
Qed.

End ReadBack.

(** * [toFixed(2)] rounds to the closest hundredth *)
Section RoundingFacts.
Import JSNumber JSParse.

Lemma frac_of_pos (num e : Z) : 0 < snd (frac_of num e).
Proof.
  unfold frac_of. destruct (0 <=? e) eqn:He; cbn; [lia|].
  apply Z.pow_pos_nonneg; lia.
Qed.

(** [frac_of] is the dyadic rational as a fraction. *)
Lemma frac_of_value (num e : Z) :
  (inject_Z num * Qpower 2 e * inject_Z (snd (frac_of num e))
   == inject_Z (fst (frac_of num e)))%Q.
Proof.
  unfold frac_of. destruct (0 <=? e) eqn:He; cbn [fst snd].
  - apply Z.leb_le in He. rewrite inject_Z_mult.
    rewrite (Zpower_Qpower 2 e He). change (inject_Z 2) with 2%Q. ring.
  - apply Z.leb_gt in He.
    assert (Hp : (Qpower 2 e == / inject_Z (2 ^ (- e)))%Q).
    { replace e with (- (- e)) at 1 by lia. rewrite Qpower_opp.
      rewrite (Zpower_Qpower 2 (- e)) by lia. reflexivity. }
    rewrite Hp. field.
    intros H0. assert (0 < 2 ^ (- e)) as Hpos by (apply Z.pow_pos_nonneg; lia).
    unfold Qeq in H0. cbn in H0. lia.
Qed.

Lemma to_Q_abs (s : bool) (m : positive) (e : Z) :
  (Qabs (to_Q (S754_finite s m e)) == inject_Z (Zpos m) * Qpower 2 e)%Q.
Proof.
  assert (Hv : (0 <= inject_Z (Zpos m) * Qpower 2 e)%Q).
  { apply Qmult_le_0_compat; [discriminate|]. apply Qpower_0_le. discriminate. }
  cbn [to_Q]. destruct s.
  - rewrite Qabs_opp. apply Qabs_pos, Hv.
  - apply Qabs_pos, Hv.
Qed.

(** The integer [toFixed(2)] prints is the number of hundredths closest to
    the magnitude of the Number, the larger of two equally close. *)
Lemma fixed_digits_round2 (s : bool) (m : positive) (e : Z) :
  fixed_digits 2 m e = round2 (Qabs (to_Q (S754_finite s m e))).
Proof.
  unfold round2. rewrite (to_Q_abs s m e).
  unfold fixed_digits.
  pose proof (frac_of_pos (Zpos m * 10 ^ Z.of_nat 2) e) as Hb.
  pose proof (frac_of_value (Zpos m * 10 ^ Z.of_nat 2) e) as Hv.
  destruct (frac_of (Zpos m * 10 ^ Z.of_nat 2) e) as [a b]. cbn [fst snd] in *.
  set (v := (inject_Z (Zpos m) * Qpower 2 e)%Q) in *.
  set (f := Qfloor (100 * v + (1 # 2))).
  pose proof (Qfloor_le (100 * v + (1 # 2))) as Hf1.
  pose proof (Qlt_floor (100 * v + (1 # 2))) as Hf2.
  fold f in Hf1, Hf2.
  rewrite inject_Z_mult in Hv. change (inject_Z (10 ^ Z.of_nat 2)) with 100%Q in Hv.
  assert (HB : (0 < inject_Z b)%Q).
  { change 0%Q with (inject_Z 0). rewrite <- Zlt_Qlt. exact Hb. }
  assert (Hy : ((100 * v + (1 # 2)) * inject_Z (2 * b)
                == inject_Z (2 * a + b))%Q).
  { rewrite inject_Z_plus, !inject_Z_mult, <- Hv. unfold v.
    change (inject_Z 2) with 2%Q. ring. }
  assert (H2B : (0 < inject_Z (2 * b))%Q).
  { change 0%Q with (inject_Z 0). rewrite <- Zlt_Qlt. lia. }
  assert (H1 : (inject_Z (f * (2 * b)) <= inject_Z (2 * a + b))%Q).
  { rewrite (inject_Z_mult f (2 * b)), <- Hy.
    apply Qmult_le_compat_r; [exact Hf1|]. apply Qlt_le_weak, H2B. }
  assert (H2 : (inject_Z (2 * a + b) < inject_Z ((f + 1) * (2 * b)))%Q).
  { rewrite (inject_Z_mult (f + 1) (2 * b)), <- Hy.
    apply Qmult_lt_compat_r; [exact H2B|exact Hf2]. }
  rewrite <- Zle_Qle in H1. rewrite <- Zlt_Qlt in H2.
  symmetry. apply (Z.div_unique_pos (2 * a + b) (2 * b) f (2 * a + b - f * (2 * b))); lia.
Qed.

End RoundingFacts.

(** * Properties of [formatBytes] *)
Section FormatFacts.
Import JSNumber JSParse Format.

Lemma digits2_pos_shift (p k : positive) :
  digits2_pos (Pos.iter xO p k) = (digits2_pos p + k)%positive.
Proof.
  induction k as [|k IH] using Pos.peano_ind.
  - cbn. lia.
  - rewrite Pos.iter_succ. cbn [digits2_pos]. rewrite IH. lia.
Qed.

Lemma log2_digits (p : positive) :
  Z.log2 (Zpos p) = Zpos (digits2_pos p) - 1.
Proof.
  assert (Hs : forall q, Pos.size q = digits2_pos q).
  { induction q as [q IH|q IH|]; cbn; rewrite ?IH; reflexivity. }
  destruct p as [p|p|]; cbn [Z.log2 digits2_pos]; rewrite ?Hs; lia.
Qed.

Lemma digits_bound (p : positive) (n : Z) :
  0 <= n -> Zpos p < 2 ^ n -> Zpos (digits2_pos p) <= n.
Proof.
  intros Hn Hp. pose proof (log2_digits p) as Hl.
  assert (Z.log2 (Zpos p) < n) by (apply Z.log2_lt_pow2; lia). lia.
Qed.

(** Integers below [2^53] are Numbers: the mantissa is the integer shifted
    to 53 bits. *)
Lemma of_Z_exact (p : positive) :
  Zpos p < 2 ^ 53 ->
  exists m e,
    of_Z (Zpos p) = S754_finite false m e
    /\ Z.log2 (Zpos m) + e = Z.log2 (Zpos p).
Proof.
  intros Hp. pose proof (digits_bound p 53 ltac:(lia) Hp) as Hd.
  set (d := digits2_pos p) in *.
  assert (Hfinal : forall m e,
            Zpos (digits2_pos m) = 53 -> -1074 <= e <= 971 ->
            binary_round_aux prec emax false (Zpos m) e loc_Exact
            = S754_finite false m e).
  { intros m e Hm He. unfold binary_round_aux, shr_fexp.
    cbn [Zdigits2 shr_record_of_loc].
    assert (Hf : fexp prec emax (Zpos (digits2_pos m) + e) - e = 0).
    { unfold fexp, emin, prec, emax. lia. }
    rewrite Hf. cbn [shr shr_m loc_of_shr_record round_nearest_even].
    cbn [Zdigits2 shr_record_of_loc]. rewrite Hf. cbn [shr shr_m].
    destruct (e <=? emax - prec) eqn:Hle; [reflexivity|].
    apply Z.leb_gt in Hle. unfold emax, prec in Hle. lia. }
  unfold of_Z, binary_normalize, binary_round, shl_align.
  assert (Hfexp : fexp prec emax (Zpos (digits2_pos p) + 0) = Zpos d - 53).
  { unfold fexp, emin, prec, emax. fold d. lia. }
  rewrite Hfexp.
  destruct (Zpos d - 53 - 0) as [|k|k] eqn:Hk; try lia.
  - exists p, 0. split.
    + apply Hfinal; [fold d|]; lia.
    + lia.
  - exists (Pos.iter xO p k), (Zpos d - 53). split.
    + apply Hfinal; [rewrite digits2_pos_shift; fold d|]; lia.
    + rewrite !log2_digits, digits2_pos_shift. fold d. lia.
Qed.

Lemma floor_log1024_of_N (p : positive) :
  Zpos p < 2 ^ 53 ->
  floor_log1024 (of_N (Npos p)) = of_Z (Z.log2 (Zpos p) / 10).
Proof.
  intros Hp. destruct (of_Z_exact p Hp) as (m & e & Heq & Hlog).
  unfold of_N. cbn [Z.of_N]. rewrite Heq. cbn [floor_log1024].
  rewrite Hlog. reflexivity.
Qed.

Lemma formatBytes_unit (x : number) :
  is_zero x = false ->
  exists n,
    formatBytes x
    = n ++ " " ++ template_undefined (array_get sizes (floor_log1024 x)).
Proof. intros Hz. unfold formatBytes. rewrite Hz. eexists. reflexivity. Qed.

Lemma of_N_nonzero (p : positive) :
  Zpos p < 2 ^ 53 -> is_zero (of_N (Npos p)) = false.
Proof.
  intros Hp. destruct (of_Z_exact p Hp) as (m & e & Heq & _).
  unfold of_N. cbn [Z.of_N]. rewrite Heq. reflexivity.
Qed.

(** Below one gibibyte the size ends in one of the three units. *)
Lemma formatBytes_unit_below_one_gigabyte (b : N) :
  (0 < b < 2 ^ 30)%N ->
  exists n u,
    formatBytes (of_N b) = n ++ " " ++ u /\ In u sizes.
Proof.
  intros Hb. destruct b as [|p]; [lia|].
  assert (Hp : Zpos p < 2 ^ 30) by lia.
  assert (Hp53 : Zpos p < 2 ^ 53) by lia.
  destruct (formatBytes_unit (of_N (Npos p)) (of_N_nonzero p Hp53)) as (n & Hn).
  rewrite floor_log1024_of_N in Hn by exact Hp53.
  assert (Hl : 0 <= Z.log2 (Zpos p) < 30).
  { split; [apply Z.log2_nonneg|]. apply Z.log2_lt_pow2; lia. }
  assert (Hq : Z.log2 (Zpos p) / 10 = 0 \/ Z.log2 (Zpos p) / 10 = 1
               \/ Z.log2 (Zpos p) / 10 = 2).
  { assert (0 <= Z.log2 (Zpos p) / 10 < 3)
      by (split; [apply Z.div_pos; lia|apply Z.div_lt_upper_bound; lia]).
    lia. }
  exists n. destruct Hq as [Hq | [Hq | Hq]]; rewrite Hq in Hn;
    eexists; (split; [exact Hn|]); cbn; auto.
Qed.

(** From one gibibyte on (and below [2^53] bytes) the unit is [undefined]. *)
Lemma formatBytes_unit_from_one_gigabyte (b : N) :
  (2 ^ 30 <= b < 2 ^ 53)%N ->
  exists n, formatBytes (of_N b) = n ++ " undefined".
Proof.
  intros Hb. destruct b as [|p]; [lia|].
  assert (Hp : 2 ^ 30 <= Zpos p < 2 ^ 53) by lia.
  destruct (formatBytes_unit (of_N (Npos p)) (of_N_nonzero p (proj2 Hp)))
    as (n & Hn).
  rewrite floor_log1024_of_N in Hn by apply Hp.
  assert (Hl : 30 <= Z.log2 (Zpos p) < 53).
  { split; [apply Z.log2_le_pow2; lia|apply Z.log2_lt_pow2; lia]. }
  assert (Hq : Z.log2 (Zpos p) / 10 = 3 \/ Z.log2 (Zpos p) / 10 = 4
               \/ Z.log2 (Zpos p) / 10 = 5).
  { assert (3 <= Z.log2 (Zpos p) / 10 < 6)
      by (split; [apply Z.div_le_lower_bound; lia
                 |apply Z.div_lt_upper_bound; lia]).
    lia. }
  exists n. destruct Hq as [Hq | [Hq | Hq]]; rewrite Hq in Hn; exact Hn.
Qed.

(** C5. Two gibibytes: the index into [sizes] is 3, past its last element,
    and the unit printed is [undefined]. The zero case is as the claim
    says. *)
Theorem formatBytes_unit_undefined_from_one_gigabyte :
  formatBytes (of_N 2147483648) = "2 undefined"
  /\ array_get sizes (floor_log1024 (of_N 2147483648)) = None
  /\ formatBytes (of_N 0) = "0 KB".
Proof. vm_compute. auto. Qed.

Lemma formatBytes_receipt : formatBytes (of_N 500000) = "488.28 KB".
Proof. vm_compute. reflexivity. Qed.

End FormatFacts.

(** * Properties of the rendering *)
Section RenderFacts.
Import JSNumber JSParse Format Render Examples.

Lemma lookup_field_Elem (label tag : string) (cs : list node) :
  lookup_field label (Elem tag cs)
  = match as_field label cs with
    | Some v => Some (text_of v)
    | None => lookup_fields label cs
    end.
Proof. reflexivity. Qed.

Lemma lookup_fields_app (label : string) (l1 l2 : list node) :
  lookup_fields label (l1 ++ l2)
  = match lookup_fields label l1 with
    | Some s => Some s
    | None => lookup_fields label l2
    end.
Proof.
  induction l1 as [|c l1 IH]; [reflexivity|].
  cbn [app lookup_fields]. fold (lookup_fields label).
  destruct (lookup_field label c); [reflexivity|exact IH].
Qed.

(** No row of the items table looks like a labelled field. *)
Lemma lookup_fields_rows (label : string) (its : list DocumentItem) :
  lookup_fields label (map item_row its) = None.
Proof. induction its as [|it its IH]; [reflexivity|exact IH]. Qed.

Lemma lookup_fields_cons (label : string) (c : node) (l : list node) :
  lookup_fields label (c :: l)
  = match lookup_field label c with
    | Some s => Some s
    | None => lookup_fields label l
    end.
Proof. reflexivity. Qed.

Lemma lookup_fields_nil (label : string) : lookup_fields label nil = None.
Proof. reflexivity. Qed.

Lemma lookup_field_Text (label s : string) : lookup_field label (Text s) = None.
Proof. reflexivity. Qed.

(** Walks the tree one node at a time, deciding at each element whether it
    is the field looked for. *)
Ltac walk :=
  repeat progress
    (rewrite ?lookup_fields_rows, ?lookup_fields_nil, ?lookup_field_Text;
     rewrite ?lookup_fields_cons; rewrite ?lookup_field_Elem;
     simpl (as_field _ _); cbv iota).

Lemma append_empty_r (s : string) : s ++ EmptyString = s.
Proof. induction s as [|c s IH]; cbn; [reflexivity|]. rewrite IH. reflexivity. Qed.

Lemma text_of_single (s : string) : text_of [Text s] = s.
Proof. cbn. apply append_empty_r. Qed.

Lemma lookup_fields_items (label : string) (ed : ExtractedData) :
  lookup_fields label (items_section ed) = None.
Proof.
  unfold items_section. destruct (items ed) as [|it its]; [reflexivity|].
  set (rows := (it :: its)%list). walk. reflexivity.
Qed.

(** Looking up a given label: the items table is skipped, the rest of the
    tree is fixed. *)
Ltac lookup_label :=
  unfold extracted_section;
  rewrite lookup_field_Elem; simpl (as_field _ _); cbv iota; cbn [app];
  rewrite !lookup_fields_cons, lookup_fields_app, lookup_fields_items;
  cbn; rewrite ?append_empty_r; reflexivity.

Lemma lookup_numero (ed : ExtractedData) :
  lookup_field "Número:" (extracted_section ed)
  = Some (or_string (numero ed) "No detectado").
Proof. lookup_label. Qed.

Lemma lookup_fecha (ed : ExtractedData) :
  lookup_field "Fecha de Emisión:" (extracted_section ed)
  = Some (or_string (fecha_emision ed) "No detectada").
Proof. lookup_label. Qed.

Lemma lookup_ruc (ed : ExtractedData) :
  lookup_field "RUC:" (extracted_section ed)
  = Some (or_string (ruc (emisor ed)) "No detectado").
Proof. lookup_label. Qed.

Lemma lookup_nombre (ed : ExtractedData) :
  lookup_field "Nombre:" (extracted_section ed)
  = Some (or_string (nombre (cliente ed)) "No detectado").
Proof. lookup_label. Qed.

Lemma lookup_documento (ed : ExtractedData) :
  lookup_field "Documento:" (extracted_section ed)
  = Some (documento_text (cliente ed)).
Proof. lookup_label. Qed.

Lemma lookup_subtotal (ed : ExtractedData) :
  lookup_field "Subtotal:" (extracted_section ed)
  = Some (money (subtotal (totales ed)) "No detectado").
Proof. lookup_label. Qed.

Lemma lookup_igv (ed : ExtractedData) :
  lookup_field "IGV:" (extracted_section ed)
  = Some (money (igv (totales ed)) "No aplica").
Proof. lookup_label. Qed.

Lemma lookup_total (ed : ExtractedData) :
  lookup_field "Total:" (extracted_section ed)
  = Some (money (total (totales ed)) "No detectado").
Proof. lookup_label. Qed.

Lemma or_string_shown (a : option string) (d : string) :
  d <> EmptyString -> or_string a d <> EmptyString.
Proof. destruct a as [[|c r]|]; cbn; congruence. Qed.

Lemma documento_text_shown (c : Cliente) : documento_text c <> EmptyString.
Proof.
  unfold documento_text. destruct (documento c) as [d|]; [|discriminate].
  destruct (template_null (tipo d)); discriminate.
Qed.

Lemma money_shown (x : option number) (d : string) :
  d <> EmptyString -> money x d <> EmptyString.
Proof.
  intros Hd. unfold money. destruct x as [v|]; [|exact Hd].
  destruct (truthy v); [discriminate|exact Hd].
Qed.

Lemma money_placeholder (x : option number) (d : string) :
  (x = None \/ exists v, x = Some v /\ truthy v = false) -> money x d = d.
Proof.
  intros [-> | (v & -> & Hv)]; cbn; [reflexivity|]. rewrite Hv. reflexivity.
Qed.

Lemma money_amount (v : number) (d : string) :
  truthy v = true -> money (Some v) d = "S/ " ++ toFixed 2 v.
Proof. intros Hv. cbn. rewrite Hv. reflexivity. Qed.

(** The rows of the table are the rows of the items, in order. *)
Lemma table_rows_items (ed : ExtractedData) :
  table_rows ed = map item_row (items ed).
Proof.
  unfold table_rows, extracted_section, items_section.
  destruct (items ed) as [|it its]; reflexivity.
Qed.

End RenderFacts.

Section RenderClaims.
Import JSNumber JSParse Format Render Controller Examples.

Lemma toFixed_round2 (x : number) :
  fixed_range x = true -> toFixed 2 x = round2_string x.
Proof.
  destruct x as [s | s | | s m e]; cbn [fixed_range]; try discriminate.
  - intros _. reflexivity.
  - intros Hr. unfold round2_string. cbn [toFixed]. rewrite Hr.
    rewrite (fixed_digits_round2 s m e). destruct s; reflexivity.
Qed.


(** C6, as stated, fails: a total of zero is not null, and is rendered as
    the placeholder instead of [S/ 0.00]. *)
Lemma zero_total_renders_placeholder :
  total (totales zero_total_receipt) = Some (of_Z 0)
  /\ toFixed 2 (of_Z 0) = "0.00"
  /\ lookup_field "Total:" (extracted_section zero_total_receipt)
     = Some "No detectado".
Proof. vm_compute. auto. Qed.

(** C6, amended. Each guarded field shows its placeholder when the value
    is null: [No detectado] for number, RUC, name and a null customer
    document, [No detectada] for the date; subtotal and total show
    [No detectado] and IGV [No aplica] when null or zero. A non-zero total
    shows [S/ ] and [toFixed(2)] of it, which has exactly two decimals for a
    finite value below [10^21]. None of these fields is blank, and without
    items there is no items section. *)
Theorem placeholders_and_amounts (ed : ExtractedData) :
  let view := extracted_section ed in
  let t := totales ed in
  (numero ed = None -> lookup_field "Número:" view = Some "No detectado")
  /\ (fecha_emision ed = None ->
      lookup_field "Fecha de Emisión:" view = Some "No detectada")
  /\ (ruc (emisor ed) = None -> lookup_field "RUC:" view = Some "No detectado")
  /\ (nombre (cliente ed) = None ->
      lookup_field "Nombre:" view = Some "No detectado")
  /\ (documento (cliente ed) = None ->
      lookup_field "Documento:" view = Some "No detectado")
  /\ (falsy (subtotal t) -> lookup_field "Subtotal:" view = Some "No detectado")
  /\ (falsy (igv t) -> lookup_field "IGV:" view = Some "No aplica")
  /\ (falsy (total t) -> lookup_field "Total:" view = Some "No detectado")
  /\ (forall v, truthy v = true ->
        (subtotal t = Some v ->
         lookup_field "Subtotal:" view = Some ("S/ " ++ toFixed 2 v))
        /\ (igv t = Some v ->
            lookup_field "IGV:" view = Some ("S/ " ++ toFixed 2 v))
        /\ (total t = Some v ->
            lookup_field "Total:" view = Some ("S/ " ++ toFixed 2 v))
        /\ (fixed_range v = true -> two_decimals (toFixed 2 v) = true))
  /\ (forall label,
        In label ["Número:"; "Fecha de Emisión:"; "RUC:"; "Nombre:";
                  "Documento:"; "Subtotal:"; "IGV:"; "Total:"]%list ->
        exists s, lookup_field label view = Some s /\ s <> EmptyString)
  /\ (items ed = nil ->
      items_section ed = nil /\ find_elem "table" view = None).
Proof.
  intros view t. subst view t. split_and!.
  - intros H. rewrite lookup_numero, H. reflexivity.
  - intros H. rewrite lookup_fecha, H. reflexivity.
  - intros H. rewrite lookup_ruc, H. reflexivity.
  - intros H. rewrite lookup_nombre, H. reflexivity.
  - intros H. rewrite lookup_documento. unfold documento_text. rewrite H.
    reflexivity.
  - intros H. rewrite lookup_subtotal, (money_placeholder _ _ H). reflexivity.
  - intros H. rewrite lookup_igv, (money_placeholder _ _ H). reflexivity.
  - intros H. rewrite lookup_total, (money_placeholder _ _ H). reflexivity.
  - intros v Hv. split_and!.
    + intros H. rewrite lookup_subtotal, H, (money_amount _ _ Hv). reflexivity.
    + intros H. rewrite lookup_igv, H, (money_amount _ _ Hv). reflexivity.
    + intros H. rewrite lookup_total, H, (money_amount _ _ Hv). reflexivity.
    + apply toFixed_two_decimals.
  - intros label Hl. cbn [In] in Hl.
    destruct Hl as [<- | [<- | [<- | [<- | [<- | [<- | [<- | [<- | []]]]]]]]];
      eexists;
      (split;
       [ first [ apply lookup_numero | apply lookup_fecha | apply lookup_ruc
               | apply lookup_nombre | apply lookup_documento
               | apply lookup_subtotal | apply lookup_igv
               | apply lookup_total ]
       | first [ apply or_string_shown; discriminate
               | apply money_shown; discriminate
               | apply documento_text_shown ] ]).
  - intros H. unfold extracted_section, items_section. rewrite H.
    split; reflexivity.
Qed.

Lemma placeholders_and_amounts_witness :
  let view := extracted_section partial_receipt in
  lookup_field "Número:" view = Some "No detectado"
  /\ lookup_field "Fecha de Emisión:" view = Some "No detectada"
  /\ lookup_field "IGV:" view = Some "No aplica"
  /\ lookup_field "Subtotal:" view = Some "No detectado"
  /\ lookup_field "Total:" view = Some "S/ 12.50"
  /\ items_section zero_total_receipt = nil.
Proof.
  pose proof (placeholders_and_amounts partial_receipt) as H.
  pose proof (placeholders_and_amounts zero_total_receipt) as H0.
  cbv zeta in H, H0.
  destruct H as (Hn & Hf & _ & _ & _ & Hs & Hi & _ & Hv & _).
  destruct H0 as (_ & _ & _ & _ & _ & _ & _ & _ & _ & _ & Hit).
  cbv zeta. split_and!.
  - apply Hn. reflexivity.
  - apply Hf. reflexivity.
  - apply Hi. left. reflexivity.
  - apply Hs. right. exists (of_Z 0). split; reflexivity.
  - destruct (Hv (parseFloat "12.5") eq_refl) as (_ & _ & Ht & _).
    apply Ht. reflexivity.
  - apply Hit. reflexivity.
Defined.



End RenderClaims.

(** * The binary64 product and the line total *)
Section ProductFacts.
Import JSNumber.

Lemma iter_pos_nat {A : Type} (f : A -> A) (p : positive) (x : A) :
  SpecFloat.iter_pos f p x = Nat.iter (Pos.to_nat p) f x.
Proof.
  revert x. induction p as [p IH|p IH|]; intros x; cbn [SpecFloat.iter_pos].
  - rewrite !IH, Pos2Nat.inj_xI.
    replace (S (2 * Pos.to_nat p)) with (Pos.to_nat p + (Pos.to_nat p + 1))%nat
      by lia.
    rewrite !Nat.iter_add. reflexivity.
  - rewrite !IH, Pos2Nat.inj_xO.
    replace (2 * Pos.to_nat p)%nat with (Pos.to_nat p + Pos.to_nat p)%nat
      by lia.
    rewrite Nat.iter_add. reflexivity.
  - reflexivity.
Qed.

(** Shifting right [n] times keeps the quotient by [2^n], the bit just
    below it, and whether any lower bit is set. *)
Lemma shr_1_iter (m : Z) (n : nat) :
  0 <= m ->
  let mrs := Nat.iter n shr_1 {| shr_m := m; shr_r := false; shr_s := false |} in
  exists rem,
    m = shr_m mrs * 2 ^ Z.of_nat n + rem
    /\ 0 <= shr_m mrs
    /\ 0 <= rem < 2 ^ Z.of_nat n
    /\ (shr_r mrs = true <-> 2 ^ Z.of_nat n <= 2 * rem)
    /\ (shr_s mrs = true <-> rem <> 0 /\ 2 * rem <> 2 ^ Z.of_nat n).
Proof.
  intros Hm. cbv zeta. induction n as [|n IH].
  - exists 0. cbn. split_and!; try lia; split; try discriminate; lia.
  - rewrite Nat.iter_succ.
    destruct IH as (rem & HM & Hq & Hrem & Hr & Hs).
    destruct (Nat.iter n shr_1 _) as [q r s]. cbn [shr_m shr_r shr_s] in *.
    rewrite Nat2Z.inj_succ, Z.pow_succ_r by lia.
    set (P := 2 ^ Z.of_nat n) in *.
    assert (HP : 0 < P) by (apply Z.pow_pos_nonneg; lia).
    assert (Hrs : (r || s = true <-> rem <> 0)).
    { rewrite orb_true_iff, Hr, Hs. lia. }
    destruct q as [|[q|q|]|q]; cbn [shr_1 shr_m shr_r shr_s]; try lia;
      [exists rem|exists (P + rem)|exists rem|exists (P + rem)];
      split_and!; try lia; try (rewrite Hrs; lia);
      (split; [intros; lia|reflexivity]).
Qed.


Lemma shr_exact (m e k : Z) :
  0 <= m ->
  exists mrs rem,
    shr {| shr_m := m; shr_r := false; shr_s := false |} e k
    = (mrs, e + Z.max 0 k)
    /\ m = shr_m mrs * 2 ^ Z.max 0 k + rem
    /\ 0 <= shr_m mrs
    /\ 0 <= rem < 2 ^ Z.max 0 k
    /\ (shr_r mrs = true <-> 2 ^ Z.max 0 k <= 2 * rem)
    /\ (shr_s mrs = true <-> rem <> 0 /\ 2 * rem <> 2 ^ Z.max 0 k).
Proof.
  intros Hm. destruct k as [|p|p].
  - exists {| shr_m := m; shr_r := false; shr_s := false |}, 0.
    change (Z.max 0 0) with 0. rewrite Z.pow_0_r, Z.add_0_r.
    cbn [shr shr_m shr_r shr_s].
    split_and!; try lia; try reflexivity; split; intros; try discriminate; lia.
  - pose proof (shr_1_iter m (Pos.to_nat p) Hm) as H. cbv zeta in H.
    rewrite positive_nat_Z in H. destruct H as (rem & H).
    exists (Nat.iter (Pos.to_nat p) shr_1
              {| shr_m := m; shr_r := false; shr_s := false |}), rem.
    unfold shr. rewrite iter_pos_nat.
    replace (Z.max 0 (Z.pos p)) with (Z.pos p) by lia. split; [reflexivity|exact H].
  - exists {| shr_m := m; shr_r := false; shr_s := false |}, 0.
    change (Z.max 0 (Z.neg p)) with 0. rewrite Z.pow_0_r, Z.add_0_r.
    cbn [shr shr_m shr_r shr_s].
    split_and!; try lia; try reflexivity; split; intros; try discriminate; lia.
Qed.

(** Rounding the shifted mantissa to nearest, ties to even, moves it by at
    most half a unit of the new last place. *)
Lemma round_nearest_even_close (mrs : shr_record) (M P rem : Z) :
  0 < P -> M = shr_m mrs * P + rem -> 0 <= rem < P ->
  (shr_r mrs = true <-> P <= 2 * rem) ->
  (shr_s mrs = true <-> rem <> 0 /\ 2 * rem <> P) ->
  let m1 := round_nearest_even (shr_m mrs) (loc_of_shr_record mrs) in
  shr_m mrs <= m1 <= shr_m mrs + 1
  /\ 2 * Z.abs (m1 * P - M) <= P
  /\ (rem = 0 -> m1 = shr_m mrs).
Proof.
  destruct mrs as [q r s]. cbn [shr_m shr_r shr_s]. intros HP HM Hrem Hr Hs.
  assert (Hr' : if r then P <= 2 * rem else 2 * rem < P).
  { destruct r; [apply Hr; reflexivity|].
    destruct (Z.le_gt_cases P (2 * rem)) as [H|H]; [|lia].
    apply Hr in H. discriminate. }
  assert (Hs' : if s then rem <> 0 /\ 2 * rem <> P else rem = 0 \/ 2 * rem = P).
  { destruct s; [apply Hs; reflexivity|].
    destruct (Z.eq_dec rem 0); [lia|]. destruct (Z.eq_dec (2 * rem) P); [lia|].
    assert (false = true) by (apply Hs; lia). discriminate. }
  clear Hr Hs. subst M.
  destruct r, s; cbn [loc_of_shr_record round_nearest_even];
    try destruct (Z.even q); cbv zeta; lia.
Qed.

Lemma digits2_spec (m : positive) :
  2 ^ (Zpos (digits2_pos m) - 1) <= Zpos m < 2 ^ Zpos (digits2_pos m).
Proof.
  pose proof (Z.log2_spec (Zpos m) ltac:(lia)) as H.
  rewrite log2_digits in H.
  replace (Z.succ (Zpos (digits2_pos m) - 1)) with (Zpos (digits2_pos m)) in H
    by lia.
  exact H.
Qed.


(** Rounding an exact mantissa and exponent to binary64, in units of
    [2^e]: the result lies within half the weight of its last bit of the
    exact value, which is at most the fraction [2^-53] of the exact value
    or, below the normal range, at most half the smallest subnormal; a
    zero result comes from at most half the smallest subnormal. *)
Lemma binary_round_aux_close (s : bool) (m : positive) (e : Z) :
  match binary_round_aux prec emax s (Zpos m) e loc_Exact with
  | S754_finite s' m' e' =>
      s' = s /\ e <= e'
      /\ 2 * Z.abs (Zpos m' * 2 ^ (e' - e) - Zpos m) <= 2 ^ (e' - e)
      /\ (2 ^ 53 * Z.abs (Zpos m' * 2 ^ (e' - e) - Zpos m) <= Zpos m
          \/ (e <= - 1074
              /\ 2 * Z.abs (Zpos m' * 2 ^ (e' - e) - Zpos m)
                 <= 2 ^ (- 1074 - e)))
  | S754_zero s' => s' = s /\ e <= - 1074 /\ 2 * Zpos m <= 2 ^ (- 1074 - e)
  | S754_infinity s' => s' = s
  | S754_nan => False
  end.
Proof.
  unfold binary_round_aux, shr_fexp. cbn [shr_record_of_loc Zdigits2].
  pose proof (digits2_spec m) as Hd.
  set (d := Zpos (digits2_pos m)) in *.
  assert (Hd0 : 0 < d) by (unfold d; lia).
  set (k1 := fexp prec emax (d + e) - e).
  assert (Hk1 : k1 = Z.max (d - 53) (- 1074 - e)).
  { unfold k1, fexp, emin, prec, emax. lia. }
  clearbody k1.
  destruct (shr_exact (Zpos m) e k1 ltac:(lia))
    as (mrs & rem & E1 & HM & Hq & Hrem & Hr & Hs).
  rewrite E1.
  set (P := 2 ^ Z.max 0 k1) in *.
  assert (HP : 0 < P) by (apply Z.pow_pos_nonneg; lia).
  destruct (round_nearest_even_close mrs (Zpos m) P rem HP HM Hrem Hr Hs)
    as (Hm1 & Hclose & Hexact).
  set (m1 := round_nearest_even (shr_m mrs) (loc_of_shr_record mrs)) in *.
  set (e1 := e + Z.max 0 k1).
  assert (HPe : P = 2 ^ (e1 - e)) by (unfold P, e1; f_equal; lia).
  assert (Hrel : 2 ^ 53 * Z.abs (m1 * P - Zpos m) <= Zpos m
                 \/ (e <= - 1074
                     /\ 2 * Z.abs (m1 * P - Zpos m) <= 2 ^ (- 1074 - e))).
  { destruct (Z.le_gt_cases k1 0) as [Hle|Hgt].
    - left. assert (HP1 : P = 1)
        by (unfold P; replace (Z.max 0 k1) with 0 by lia; reflexivity).
      assert (m1 = Zpos m) by (rewrite Hexact; lia). lia.
    - assert (HPk : P = 2 ^ k1) by (unfold P; f_equal; lia).
      destruct (Z.eq_dec k1 (d - 53)) as [E|NE].
      + left. assert (2 ^ (d - 1) = 2 ^ 52 * P).
        { rewrite HPk, E, <- Z.pow_add_r by lia. f_equal. lia. }
        lia.
      + right. assert (k1 = - 1074 - e) by lia.
        split; [lia|]. rewrite <- H, <- HPk. exact Hclose. }
  set (k2 := fexp prec emax (Zdigits2 m1 + e1) - e1).
  assert (Hk2 : k2 = Z.max (Zdigits2 m1 - 53) (- 1074 - e1)).
  { unfold k2, fexp, emin, prec, emax. lia. }
  assert (Hcases : k2 <= 0 \/ (k2 = 1 /\ m1 = 2 ^ 53)).
  { destruct (Z.le_gt_cases k1 0) as [Hle|Hgt].
    - left. assert (HP1 : P = 1) by (unfold P; replace (Z.max 0 k1) with 0 by lia; reflexivity).
      assert (m1 = Zpos m) by (rewrite Hexact; lia).
      rewrite Hk2. replace m1 with (Zpos m). cbn [Zdigits2]. fold d.
      unfold e1. lia.
    - assert (HPk : P = 2 ^ k1) by (unfold P; f_equal; lia).
      assert (He1 : e1 = e + k1) by (unfold e1; lia).
      assert (Hpow : 2 ^ d <= 2 ^ 53 * P).
      { rewrite HPk, <- Z.pow_add_r by lia. apply Z.pow_le_mono_r; lia. }
      assert (Hq53 : shr_m mrs < 2 ^ 53) by nia.
      destruct (Z.eq_dec m1 (2 ^ 53)) as [E|NE].
      + right. split; [|exact E]. rewrite Hk2, E.
        change (Zdigits2 (2 ^ 53)) with 54. lia.
      + left. rewrite Hk2. destruct m1 as [|q1|q1] eqn:Em1; try lia.
        * cbn [Zdigits2]. lia.
        * cbn [Zdigits2].
          assert (Zpos (digits2_pos q1) <= 53) by (apply digits_bound; lia).
          lia. }
  clear Hk2. clearbody k2.
  destruct Hcases as [Hk2|[Hk2 Hm153]].
  - assert (Es : shr {| shr_m := m1; shr_r := false; shr_s := false |} e1 k2
                 = ({| shr_m := m1; shr_r := false; shr_s := false |}, e1)).
    { destruct k2; try lia; reflexivity. }
    rewrite Es. cbn [shr_m]. clearbody m1.
    destruct m1 as [|q1|q1]; try lia.
    + split; [reflexivity|].
      destruct (Z.le_gt_cases k1 0) as [Hle|Hgt].
      * exfalso. assert (P = 1) by (unfold P; replace (Z.max 0 k1) with 0 by lia; reflexivity).
        lia.
      * assert (HPk : P = 2 ^ k1) by (unfold P; f_equal; lia).
        assert (Hk : k1 = - 1074 - e).
        { destruct (Z.eq_dec k1 (- 1074 - e)) as [E|NE]; [exact E|exfalso].
          assert (k1 = d - 53) by lia.
          assert (2 ^ k1 <= 2 ^ (d - 1)) by (apply Z.pow_le_mono_r; lia).
          lia. }
        split; [lia|]. rewrite <- Hk, <- HPk. lia.
    + destruct (e1 <=? emax - prec); [|reflexivity].
      split; [reflexivity|]. split; [unfold e1; lia|].
      rewrite <- HPe. split; [exact Hclose|exact Hrel].
  - subst k2. rewrite Hm153.
    change (shr {| shr_m := 2 ^ 53; shr_r := false; shr_s := false |} e1 1)
      with ({| shr_m := 2 ^ 52; shr_r := false; shr_s := false |}, e1 + 1).
    cbn [shr_m]. change (2 ^ 52) with (Zpos (2 ^ 52)).
    cbv iota.
    destruct (e1 + 1 <=? emax - prec); [|reflexivity].
    split; [reflexivity|]. split; [unfold e1; lia|].
    replace (e1 + 1 - e) with (Z.succ (e1 - e)) by lia.
    rewrite Z.pow_succ_r by (unfold e1; lia). rewrite <- HPe.
    rewrite Hm153 in Hclose, Hrel.
    change (Zpos (2 ^ 52)) with (2 ^ 52).
    replace (2 ^ 52 * (2 * P)) with (2 ^ 53 * P)
      by (change (2 ^ 53) with (2 * 2 ^ 52); ring).
    split; [lia|exact Hrel].
Qed.


Lemma Qpower2_pos (e : Z) : (0 < Qpower 2 e)%Q.
Proof. apply Qpower_0_lt. reflexivity. Qed.

Lemma Qpower2_split (e e' : Z) :
  e <= e' -> (Qpower 2 e' == Qpower 2 e * inject_Z (2 ^ (e' - e)))%Q.
Proof.
  intros He. replace e' with (e + (e' - e)) at 1 by lia.
  rewrite Qpower_plus by discriminate.
  rewrite (Zpower_Qpower 2 (e' - e)) by lia. reflexivity.
Qed.

Lemma to_Q_product (sx sy : bool) (mx my : positive) (ex ey : Z) (r : Q) :
  (Qabs ((if xorb sx sy then - r else r)
         - to_Q (S754_finite sx mx ex) * to_Q (S754_finite sy my ey))
   == Qabs (r - inject_Z (Zpos (mx * my)) * Qpower 2 (ex + ey)))%Q.
Proof.
  assert (HV : (inject_Z (Zpos (mx * my)) * Qpower 2 (ex + ey)
                == (inject_Z (Zpos mx) * Qpower 2 ex)
                   * (inject_Z (Zpos my) * Qpower 2 ey))%Q).
  { rewrite Pos2Z.inj_mul, inject_Z_mult, Qpower_plus by discriminate. ring. }
  rewrite HV. cbn [to_Q].
  set (a := (inject_Z (Zpos mx) * Qpower 2 ex)%Q).
  set (b := (inject_Z (Zpos my) * Qpower 2 ey)%Q).
  destruct sx, sy; cbn [xorb].
  - apply Qabs_wd. ring.
  - rewrite <- (Qabs_opp (r - a * b)). apply Qabs_wd. ring.
  - rewrite <- (Qabs_opp (r - a * b)). apply Qabs_wd. ring.
  - reflexivity.
Qed.

(** The binary64 product and the exact product of two Numbers: when the
    first is finite they differ by at most the fraction [2^-53] of the
    exact product, plus half the smallest subnormal near underflow. *)
Lemma mul_close (x y : number) :
  match mul x y with
  | S754_zero _ | S754_finite _ _ _ =>
      (Qabs (to_Q (mul x y) - to_Q x * to_Q y)
       <= Qabs (to_Q x * to_Q y) * Qpower 2 (- 53) + Qpower 2 (- 1075))%Q
  | _ => True
  end.
Proof.
  assert (Hh : (0 < Qpower 2 (- 1075))%Q) by apply Qpower2_pos.
  assert (Hc : (0 < Qpower 2 (- 53))%Q) by apply Qpower2_pos.
  assert (Hhalf : forall e, e <= - 1074 ->
            (Qpower 2 e * inject_Z (2 ^ (- 1074 - e))
             == 2 * Qpower 2 (- 1075))%Q).
  { intros e He. rewrite <- (Qpower2_split e (- 1074) He).
    change (- 1074) with (1 + - 1075). rewrite Qpower_plus by discriminate.
    reflexivity. }
  destruct x as [sx|sx| |sx mx ex], y as [sy|sy| |sy my ey];
    unfold mul; cbn [SFmul]; try exact I;
    try (cbn [to_Q];
         match goal with
         | |- (Qabs (_ - ?a * ?b) <= _)%Q =>
             let Hab := fresh in
             assert (Hab : (a * b == 0)%Q) by ring; rewrite Hab
         end;
         change (Qabs (0 - 0)) with 0%Q; change (Qabs 0) with 0%Q;
         rewrite Qmult_0_l, Qplus_0_l; apply Qlt_le_weak, Hh).
  pose proof (binary_round_aux_close (xorb sx sy) (mx * my) (ex + ey)) as H.
  assert (Hexact : (Qabs (to_Q (S754_finite sx mx ex)
                          * to_Q (S754_finite sy my ey))
                    == inject_Z (Zpos (mx * my)) * Qpower 2 (ex + ey))%Q).
  { pose proof (to_Q_product sx sy mx my ex ey 0) as Hp.
    assert (H0 : ((if xorb sx sy then - 0 else 0) == 0)%Q)
      by (destruct (xorb sx sy); reflexivity).
    rewrite H0 in Hp.
    setoid_replace (to_Q (S754_finite sx mx ex) * to_Q (S754_finite sy my ey))%Q
      with (- (0 - to_Q (S754_finite sx mx ex)
                   * to_Q (S754_finite sy my ey)))%Q
      using relation Qeq by ring.
    rewrite Qabs_opp, Hp.
    setoid_replace (0 - inject_Z (Zpos (mx * my)) * Qpower 2 (ex + ey))%Q
      with (- (inject_Z (Zpos (mx * my)) * Qpower 2 (ex + ey)))%Q
      using relation Qeq by ring.
    rewrite Qabs_opp. apply Qabs_pos.
    apply Qmult_le_0_compat; [discriminate|].
    apply Qlt_le_weak, Qpower2_pos. }
  pose proof (Qpower2_pos (ex + ey)) as HA.
  destruct (binary_round_aux prec emax (xorb sx sy) (Zpos (mx * my)) (ex + ey)
              loc_Exact) as [s'|s'| |s' m' e'] eqn:E; try exact I.
  - destruct H as (-> & He & Hm). rewrite Hexact.
    change (to_Q (S754_zero (xorb sx sy))) with 0%Q.
    setoid_replace (0 - to_Q (S754_finite sx mx ex)
                        * to_Q (S754_finite sy my ey))%Q
      with (- (to_Q (S754_finite sx mx ex) * to_Q (S754_finite sy my ey)))%Q
      using relation Qeq by ring.
    rewrite Qabs_opp, Hexact.
    pose proof (Hhalf (ex + ey) He) as Hq.
    assert (Hz : (2 * inject_Z (Zpos (mx * my))
                  <= inject_Z (2 ^ (- 1074 - (ex + ey))))%Q).
    { change 2%Q with (inject_Z 2). rewrite <- inject_Z_mult, <- Zle_Qle.
      exact Hm. }
    assert (Hmq : (0 <= inject_Z (Zpos (mx * my)))%Q) by discriminate.
    set (A := Qpower 2 (ex + ey)) in *.
    set (mq := inject_Z (Zpos (mx * my))) in *.
    set (pq := inject_Z (2 ^ (- 1074 - (ex + ey)))) in *.
    set (h := Qpower 2 (- 1075)) in *. set (c := Qpower 2 (- 53)) in *.
    clearbody A mq pq h c.
    assert (H1 : (A * (2 * mq) <= A * pq)%Q)
      by (apply Qmult_le_l; [exact HA|exact Hz]).
    assert (H2 : (0 <= mq * A * c)%Q).
    { apply Qmult_le_0_compat; [apply Qmult_le_0_compat|];
        [exact Hmq|apply Qlt_le_weak, HA|apply Qlt_le_weak, Hc]. }
    lra.
  - destruct H as (-> & He & Hm & Hrel).
    pose proof (to_Q_product sx sy mx my ex ey
                  (inject_Z (Zpos m') * Qpower 2 e')) as Hp.
    assert (Hr : (to_Q (S754_finite (xorb sx sy) m' e')
                  == (if xorb sx sy then - (inject_Z (Zpos m') * Qpower 2 e')
                      else inject_Z (Zpos m') * Qpower 2 e'))%Q).
    { cbn [to_Q]. destruct (xorb sx sy); reflexivity. }
    rewrite Hr, Hp, Hexact.
    rewrite (Qpower2_split (ex + ey) e' He).
    set (A := Qpower 2 (ex + ey)) in *.
    set (D := Zpos m' * 2 ^ (e' - (ex + ey)) - Zpos (mx * my)) in *.
    setoid_replace (inject_Z (Zpos m') * (A * inject_Z (2 ^ (e' - (ex + ey))))
                    - inject_Z (Zpos (mx * my)) * A)%Q
      with (A * inject_Z D)%Q using relation Qeq
      by (unfold D, Z.sub; rewrite inject_Z_plus, inject_Z_opp, inject_Z_mult;
          ring).
    rewrite Qabs_Qmult, (Qabs_pos A) by (apply Qlt_le_weak, HA).
    change (Qabs (inject_Z D)) with (inject_Z (Z.abs D)).
    assert (Hd : (0 <= inject_Z (Z.abs D))%Q).
    { change 0%Q with (inject_Z 0). rewrite <- Zle_Qle. lia. }
    assert (Hmq : (0 <= inject_Z (Zpos (mx * my)))%Q) by discriminate.
    destruct Hrel as [Hrel|(He0 & Hrel)].
    + assert (Hz : (inject_Z (2 ^ 53) * inject_Z (Z.abs D)
                    <= inject_Z (Zpos (mx * my)))%Q).
      { rewrite <- inject_Z_mult, <- Zle_Qle. exact Hrel. }
      assert (Hk : (Qpower 2 (- 53) * inject_Z (2 ^ 53) == 1)%Q)
        by reflexivity.
      set (dq := inject_Z (Z.abs D)) in *.
      set (mq := inject_Z (Zpos (mx * my))) in *.
      set (K := inject_Z (2 ^ 53)) in *.
      set (h := Qpower 2 (- 1075)) in *. set (c := Qpower 2 (- 53)) in *.
      clearbody A dq mq K h c.
      assert (Hstep : (A * dq == c * (A * (K * dq)))%Q).
      { setoid_replace (c * (A * (K * dq)))%Q with ((c * K) * (A * dq))%Q
          using relation Qeq by ring.
        rewrite Hk. ring. }
      assert (Hle : (c * (A * (K * dq)) <= c * (A * mq))%Q).
      { apply Qmult_le_l; [exact Hc|]. apply Qmult_le_l; [exact HA|exact Hz]. }
      rewrite Hstep.
      setoid_replace (c * (A * mq))%Q with (mq * A * c)%Q
        using relation Qeq in Hle by ring.
      lra.
    + pose proof (Hhalf (ex + ey) He0) as Hq. fold A in Hq.
      assert (Hz : (2 * inject_Z (Z.abs D)
                    <= inject_Z (2 ^ (- 1074 - (ex + ey))))%Q).
      { change 2%Q with (inject_Z 2). rewrite <- inject_Z_mult, <- Zle_Qle.
        exact Hrel. }
      set (dq := inject_Z (Z.abs D)) in *.
      set (mq := inject_Z (Zpos (mx * my))) in *.
      set (pq := inject_Z (2 ^ (- 1074 - (ex + ey)))) in *.
      set (h := Qpower 2 (- 1075)) in *. set (c := Qpower 2 (- 53)) in *.
      clearbody A dq mq pq h c.
      assert (H1 : (A * (2 * dq) <= A * pq)%Q)
        by (apply Qmult_le_l; [exact HA|exact Hz]).
      assert (H2 : (0 <= mq * A * c)%Q).
      { apply Qmult_le_0_compat; [apply Qmult_le_0_compat|];
          [exact Hmq|apply Qlt_le_weak, HA|apply Qlt_le_weak, Hc]. }
      lra.
Qed.

End ProductFacts.

Section ProductClaim.
Import JSNumber JSParse Format Render Controller Examples.

(** C7, as stated, fails: for three units at 0.005 the exact product of the
    two Numbers is a little above 0.015, which [round2] takes to 0.02; the
    binary64 product is the Number just below 0.015, and the cell shows
    [S/ 0.01]. *)
Lemma line_total_differs_from_exact_rounding :
  let q := cantidad half_cents in
  let p := precio_unitario half_cents in
  cell 3 (item_row half_cents) = Some "S/ 0.01"
  /\ fixed_string 2 (round2 (to_Q q * to_Q p)) = "0.02"
  /\ (15 # 1000 < to_Q q * to_Q p)%Q
  /\ (to_Q (mul q p) < 15 # 1000)%Q.
Proof. vm_compute. auto. Qed.

(** C7, amended. The last cell of the row of every item shows [S/ ] and
    [toFixed(2)] of the binary64 product of the item's own quantity and
    unit price; nothing else of the item enters it. Where [toFixed] prints
    digits, for a product that is finite and below [10^21], the text is that
    binary64 product rounded to the closest hundredth, and the binary64
    product differs from the exact product of the two Numbers by at most
    the fraction [2^-53] of it (plus [2^-1075], for products near
    underflow). Rounded twice, the text can miss [round2] of the exact
    product by a hundredth. *)
Theorem line_total_rounds_binary64_product
  (ed : ExtractedData) (i : nat) (item : DocumentItem) :
  items ed !! i = Some item ->
  let product := SFmul 53 1024 (cantidad item) (precio_unitario item) in
  let exact := (to_Q (cantidad item) * to_Q (precio_unitario item))%Q in
  exists row,
    table_rows ed !! i = Some row
    /\ cell 3 row = Some ("S/ " ++ toFixed 2 product)
    /\ (fixed_range product = true ->
        cell 3 row = Some ("S/ " ++ round2_string product)
        /\ (Qabs (to_Q product - exact)
            <= Qabs exact * Qpower 2 (- 53) + Qpower 2 (- 1075))%Q).
Proof.
  intros Hi product exact. exists (item_row item). split_and!.
  - rewrite table_rows_items, list_lookup_fmap, Hi. reflexivity.
  - cbn. rewrite append_empty_r. reflexivity.
  - intros Hr. split.
    + cbn. rewrite append_empty_r.
      change (mul (cantidad item) (precio_unitario item)) with product.
      rewrite (toFixed_round2 _ Hr). reflexivity.
    + pose proof (mul_close (cantidad item) (precio_unitario item)) as Hc.
      change (mul (cantidad item) (precio_unitario item)) with product in Hc.
      fold exact in Hc.
      destruct product as [s|s| |s m e]; try discriminate Hr; exact Hc.
Qed.

Lemma line_total_rounds_binary64_product_witness :
  let q := of_Z 2 in
  let p := parseFloat "1.005" in
  exists row,
    table_rows partial_receipt !! 1%nat = Some row
    /\ cell 3 row = Some "S/ 2.01"
    /\ (Qabs (to_Q (mul q p) - to_Q q * to_Q p)
        <= Qabs (to_Q q * to_Q p) * Qpower 2 (- 53) + Qpower 2 (- 1075))%Q.
Proof.
  destruct (line_total_rounds_binary64_product partial_receipt 1
              {| descripcion := "leche"; cantidad := of_Z 2;
                 precio_unitario := parseFloat "1.005";
                 otros := [("total", of_Z 99)] |}
              eq_refl) as (row & Hrow & _ & Hround).
  destruct (Hround eq_refl) as (Hcell & Hclose).
  exists row. split; [exact Hrow|]. split; [exact Hcell|exact Hclose].
Defined.

End ProductClaim.

(** * Properties of the controller *)
Section ControllerFacts.
Import JSNumber JSParse Format Render Controller Examples.

(** Re-rendering touches [videoRef.current] only. *)
Lemma commit_fields (st : state) :
  selectedFile (commit st) = selectedFile st
  /\ isProcessing (commit st) = isProcessing st
  /\ result (commit st) = result st
  /\ isCameraActive (commit st) = isCameraActive st
  /\ streams (commit st) = streams st
  /\ tasks (commit st) = tasks st
  /\ alerts (commit st) = alerts st
  /\ requests (commit st) = requests st.
Proof.
  unfold commit.
  destruct (isCameraActive st) eqn:Ha; [destruct (videoRef st)|];
    cbn; rewrite ?Ha; tauto.
Qed.

Lemma commit_videoRef_inactive (st : state) :
  isCameraActive st = false -> videoRef (commit st) = None.
Proof. unfold commit. intros ->. reflexivity. Qed.


Lemma commit_rendered (st : state) : rendered (commit st).
Proof.
  unfold rendered, commit.
  destruct (isCameraActive st) eqn:Ha; [destruct (videoRef st) eqn:Hv|];
    cbn; rewrite ?Ha, ?Hv; reflexivity.
Qed.

Lemma initial_rendered : rendered initial.
Proof. reflexivity. Qed.

Lemma run_snoc (evs : list event) (ev : event) (st : state) :
  run (evs ++ [ev]) st = step (run evs st) ev.
Proof. unfold run. apply fold_left_app. Qed.

Lemma run_rendered (evs : list event) (st : state) :
  rendered st -> rendered (run evs st).
Proof.
  revert st. induction evs as [|ev evs IH]; intros st Hst; [exact Hst|].
  cbn. apply IH, commit_rendered.
Qed.

(** *** Counting submissions in flight *)

Lemma in_flight_spawn (t : task) (st : state) :
  in_flight (spawn t st)
  = (in_flight st + if is_submission t then 1 else 0)%nat.
Proof.
  unfold in_flight, spawn. cbn. rewrite filter_app, length_app. f_equal.
  destruct (is_submission t) eqn:Ht.
  - rewrite filter_cons_True by exact Ht. reflexivity.
  - rewrite filter_cons_False by (rewrite Ht; discriminate). reflexivity.
Qed.

Lemma filter_delete_length (l : list task) (i : nat) (t : task) :
  l !! i = Some t ->
  length (filter (fun t => is_submission t = true) l)
  = (length (filter (fun t => is_submission t = true) (delete i l))
     + if is_submission t then 1 else 0)%nat.
Proof.
  revert i. induction l as [|a l IH]; intros i Hi; [discriminate|].
  destruct i as [|i]; cbn in Hi.
  - injection Hi as ->. cbn [delete list_delete].
    destruct (is_submission t) eqn:Ht.
    + rewrite filter_cons_True by exact Ht. cbn [length]. lia.
    + rewrite filter_cons_False by (rewrite Ht; discriminate). lia.
  - cbn [delete list_delete]. specialize (IH i Hi).
    destruct (is_submission a) eqn:Ha.
    + rewrite !filter_cons_True by exact Ha. cbn [length]. rewrite IH. reflexivity.
    + rewrite !filter_cons_False by (rewrite Ha; discriminate). exact IH.
Qed.


Ltac count_tasks :=
  rewrite ?filter_app, ?length_app;
  repeat first [ rewrite filter_cons_True by reflexivity
               | rewrite filter_cons_False by discriminate ];
  rewrite ?filter_nil; cbn [length].

Lemma single_flight_handle (ev : event) (st : state) :
  single_flight st -> single_flight (handle ev st).
Proof.
  unfold single_flight, in_flight. intros Hst.
  destruct ev as [| ctx | | file | i o]; cbn [handle].
  - destruct (isCameraActive st); [exact Hst|]. cbn. count_tasks.
    rewrite Hst. lia.
  - destruct (isCameraActive st); [|exact Hst].
    unfold captureImage. destruct (videoRef st) as [v|]; [|exact Hst].
    destruct ctx, (srcObject v); cbn; count_tasks; rewrite Hst; lia.
  - destruct (selectedFile st) as [sel|] eqn:Hsel; [|exact Hst].
    destruct (isProcessing st) eqn:Hp; [rewrite Hp; exact Hst|].
    unfold processDocument. rewrite Hsel. cbn. count_tasks.
    rewrite Hst. reflexivity.
  - destruct file; [|exact Hst]. cbn. count_tasks. rewrite Hst. lia.
  - destruct (tasks st !! i) as [t|] eqn:Hi; [|exact Hst].
    pose proof (filter_delete_length _ _ _ Hi) as Hd.
    rewrite Hst in Hd.
    destruct t, o; cbn [settle]; try exact Hst; cbn in Hd;
      try (unfold activateCamera_resolved; destruct (videoRef _));
      try (destruct blob; [|cbn; lia]);
      try (unfold processDocument_response;
           destruct (strict_eq (status body) "error"));
      cbn; count_tasks; destruct (isProcessing st); try lia.
Qed.


Lemma single_flight_step (ev : event) (st : state) :
  single_flight st -> single_flight (step st ev).
Proof.
  intros Hst. apply (single_flight_handle ev) in Hst.
  unfold single_flight, in_flight, step in *.
  destruct (commit_fields (handle ev st)) as (_ & -> & _ & _ & _ & -> & _).
  exact Hst.
Qed.

Lemma single_flight_run (evs : list event) (st : state) :
  single_flight st -> single_flight (run evs st).
Proof.
  revert st. induction evs as [|ev evs IH]; intros st Hst; [exact Hst|].
  cbn. apply IH, single_flight_step, Hst.
Qed.

(** *** The camera is never activated

    The [<video>] element is rendered only while [isCameraActive], and
    [activateCamera] sets the flag only when [videoRef.current] is set: from
    the initial state neither ever happens, and every stream
    [getUserMedia] hands out keeps all its tracks live. *)
Lemma camera_unused_handle (ev : event) (st : state) :
  camera_unused st -> camera_unused (handle ev st).
Proof.
  intros (Ha & Hv & Hs). unfold camera_unused.
  destruct ev as [| ctx | | file | i o]; cbn [handle]; rewrite ?Ha.
  - cbn. auto.
  - auto.
  - destruct (selectedFile st) eqn:Hsel; [|auto].
    destruct (isProcessing st); [auto|].
    unfold processDocument. rewrite Hsel. cbn. auto.
  - destruct file; cbn; auto.
  - destruct (tasks st !! i) as [t|]; [|auto].
    destruct t, o; cbn [settle]; auto;
      try (unfold activateCamera_resolved; cbn; rewrite Hv; cbn;
           repeat split; auto; apply Forall_app; split; [exact Hs|];
           constructor; [|constructor]; apply Forall_forall;
           intros x Hx; apply elem_of_replicate in Hx; symmetry; tauto);
      try (destruct blob);
      try (unfold processDocument_response;
           destruct (strict_eq (status body) "error"));
      cbn; auto.
Qed.

Lemma camera_unused_step (ev : event) (st : state) :
  camera_unused st -> camera_unused (step st ev).
Proof.
  intros H. apply (camera_unused_handle ev) in H. destruct H as (Ha & Hv & Hs).
  unfold step, camera_unused.
  destruct (commit_fields (handle ev st)) as (_ & _ & _ & -> & -> & _).
  rewrite commit_videoRef_inactive by exact Ha. auto.
Qed.

Lemma camera_never_activates (evs : list event) :
  camera_unused (run evs initial).
Proof.
  induction evs as [|ev evs IH] using rev_ind.
  - repeat split; constructor.
  - rewrite run_snoc. apply camera_unused_step, IH.
Qed.

(** *** Ended tracks stay ended *)

Lemma map_ended_all_ended (s : MediaStream) :
  all_ended (map (fun _ => ended) s) = true.
Proof. induction s; cbn; auto. Qed.

Lemma stopped_alter (l : list MediaStream) (i j : nat) :
  (exists s, l !! j = Some s /\ all_ended s = true) ->
  exists s, alter (map (fun _ => ended)) i l !! j = Some s
            /\ all_ended s = true.
Proof.
  intros (s & Hs & He). destruct (decide (i = j)) as [->|Hne].
  - exists (map (fun _ => ended) s). rewrite list_lookup_alter_eq, Hs.
    split; [reflexivity|apply map_ended_all_ended].
  - exists s. rewrite list_lookup_alter_ne by exact Hne. auto.
Qed.

Lemma stopped_handle (ev : event) (st : state) (stream : nat) :
  stopped st stream -> stopped (handle ev st) stream.
Proof.
  unfold stopped. intros H.
  destruct ev as [| ctx | | file | i o]; cbn [handle].
  - destruct (isCameraActive st); exact H.
  - destruct (isCameraActive st); [|exact H].
    unfold captureImage. destruct (videoRef st) as [v|]; [|exact H].
    destruct ctx, (srcObject v); cbn; auto using stopped_alter.
  - destruct (selectedFile st) eqn:Hsel; [|exact H].
    destruct (isProcessing st); [exact H|].
    unfold processDocument. rewrite Hsel. exact H.
  - destruct file; exact H.
  - destruct (tasks st !! i) as [t|]; [|exact H].
    destruct t, o; cbn [settle]; try exact H;
      try (destruct blob; exact H);
      try (unfold processDocument_response;
           destruct (strict_eq (status body) "error"); exact H).
    unfold activateCamera_resolved. destruct H as (s & Hs & He).
    exists s. split; [|exact He].
    destruct (videoRef _); cbn; rewrite lookup_app_l; auto;
      apply lookup_lt_Some in Hs; exact Hs.
Qed.

Lemma stopped_run (evs : list event) (st : state) (stream : nat) :
  stopped st stream -> stopped (run evs st) stream.
Proof.
  revert st. induction evs as [|ev evs IH]; intros st H; [exact H|].
  cbn. apply IH. unfold step, stopped.
  destruct (commit_fields (handle ev st)) as (_ & _ & _ & _ & -> & _).
  apply stopped_handle, H.
Qed.

(** *** What a failed submission leaves behind *)

Lemma alert_message_shown (error : thrown) :
  alert_message error <> EmptyString.
Proof.
  unfold alert_message.
  destruct error as [m|[[[[[|c m]]|]]|]]; cbn; discriminate.
Qed.

Lemma alert_message_server (m : string) :
  m <> EmptyString ->
  alert_message
    (AxiosError (Some {| error_data := Some {| error_message := m |} |})) = m.
Proof. destruct m; [congruence|reflexivity]. Qed.

Lemma processDocument_catch_recovers (error : thrown) (st : state) :
  let st' := processDocument_catch error st in
  isProcessing st' = false
  /\ selectedFile st' = selectedFile st
  /\ result st' = result st
  /\ alerts st' = (alerts st ++ [alert_message error])%list
  /\ requests st' = requests st.
Proof. cbn. auto. Qed.

End ControllerFacts.

Section ControllerClaims.
Import JSNumber JSParse Format Render Controller Examples.

(** C1. A 2xx response carrying [{status:"error", message:"bad file"}]
    does not store a result, but the operator is shown the generic message
    and not the server's: [processDocument] throws [new Error("bad file")],
    which reaches [console.error], while the [catch] clause builds the alert
    from [error.response], which an [Error] does not have. *)
Theorem error_envelope_alerts_generic_message :
  let st := run (submit ++ [Settle 0 (Responded bad_file)]) initial in
  alerts st = ["Error al procesar el documento"]%list
  /\ console st
     = [("Error al procesar el documento:", Error "bad file")]%list
  /\ result st = None.
Proof. vm_compute. auto. Qed.

(** The same for every message and every state in which the response
    arrives. *)
Lemma error_envelope_message_dropped (m : string) (st : state) :
  let body := {| status := Some "error"; message := Some m; data := None |} in
  let st' := processDocument_response body st in
  alerts st' = (alerts st ++ ["Error al procesar el documento"])%list
  /\ result st' = result st.
Proof. cbn. auto. Qed.

(** The handler [captureImage] by itself, in a state where the camera is
    active and the video element shows a stream (a state the component does
    not reach from [initial], see [camera_never_activates]): it ends every
    track of that stream and clears the flag in one step, and stores no
    input in that step; the input arrives when the [toBlob] callback has
    delivered a blob and the reader has finished, and never when there is
    no 2D context or the blob is null. *)
Lemma capture_stops_stream_and_defers_input
  (st : state) (ctx : bool) (video : HTMLVideoElement) (stream : nat)
  (tracks : MediaStream) :
  isCameraActive st = true ->
  videoRef st = Some video ->
  srcObject video = Some stream ->
  streams st !! stream = Some tracks ->
  let st' := step st (ClickCapturar ctx) in
  let i := length (tasks st) in
  streams st' !! stream = Some (map (fun _ => ended) tracks)
  /\ isCameraActive st' = false
  /\ videoRef st' = None
  /\ selectedFile st' = selectedFile st
  /\ tasks st' = (tasks st ++ if ctx then [ToBlob] else [])%list
  /\ (forall evs, stopped (run evs st') stream)
  /\ (ctx = true -> forall blob url,
        selectedFile
          (run [Settle i (Encoded (Some blob)); Settle i (LoadEnd url)] st')
        = Some {| name := "captura.jpg"; type := "image/jpeg";
                  size := formatBytes (of_N (blob_size blob));
                  preview := url |})
  /\ (ctx = true ->
        let st'' := step st' (Settle i (Encoded None)) in
        selectedFile st'' = selectedFile st /\ tasks st'' = tasks st).
Proof.
  intros Ha Hv Hsrc Hs st' i. subst i.
  assert (Hst' : st' = set_videoRef None
            (setIsCameraActive false
               (stop_tracks (Some stream)
                  (if ctx then spawn ToBlob st else st)))).
  { subst st'. unfold step. cbn [handle]. rewrite Ha.
    unfold captureImage. rewrite Hv, Hsrc.
    unfold commit. destruct ctx; reflexivity. }
  clearbody st'.
  assert (Hstreams : streams st' !! stream = Some (map (fun _ => ended) tracks)).
  { rewrite Hst'.
    destruct ctx;
      cbn [streams set_videoRef setIsCameraActive stop_tracks set_streams
           spawn set_tasks];
      rewrite list_lookup_alter_eq, Hs; reflexivity. }
  assert (Htasks : tasks st' = (tasks st ++ if ctx then [ToBlob] else [])%list).
  { rewrite Hst'. destruct ctx; cbn; [reflexivity|].
    rewrite app_nil_r. reflexivity. }
  assert (Hdel : forall (l : list task) (t : task),
            delete (length l) (l ++ [t])%list = l).
  { clear. intros l t. induction l as [|a l IH]; cbn; [reflexivity|].
    f_equal. exact IH. }
  split_and!.
  - exact Hstreams.
  - rewrite Hst'. reflexivity.
  - rewrite Hst'. reflexivity.
  - rewrite Hst'. destruct ctx; reflexivity.
  - exact Htasks.
  - intros evs. apply stopped_run. eexists. split; [exact Hstreams|].
    apply map_ended_all_ended.
  - intros -> blob url. cbn [run fold_left]. unfold step at 2.
    cbn [handle]. rewrite Htasks.
    rewrite list_lookup_middle by reflexivity. cbn [settle].
    rewrite Hdel.
    unfold step. cbn [handle].
    destruct (commit_fields
      (toBlob_callback (Some blob) (set_tasks (tasks st) st')))
      as (Hsel & _ & _ & _ & _ & Htk & _).
    rewrite Htk. cbn [toBlob_callback handleFileSelect spawn tasks set_tasks].
    rewrite list_lookup_middle by reflexivity. cbn [settle].
    match goal with
    | |- selectedFile (commit ?x) = _ =>
        destruct (commit_fields x) as (-> & _)
    end.
    reflexivity.
  - intros ->. cbv zeta. unfold step. cbn [handle].
    rewrite Htasks. rewrite list_lookup_middle by reflexivity.
    cbn [settle toBlob_callback]. rewrite Hdel.
    match goal with
    | |- selectedFile (commit ?x) = _ /\ _ =>
        destruct (commit_fields x) as (-> & _ & _ & _ & _ & -> & _)
    end.
    rewrite Hst'. split; reflexivity.
Qed.

(** C3. From the initial state the operator clicks [Cámara] and grants
    access: the stream exists with its track live, while the flag stays
    cleared and no video element shows it, because [videoRef.current] is
    still null when [getUserMedia] resolves. Nothing refers to the stream
    and nothing will stop it. *)
Theorem granted_stream_left_running :
  let st := run [ClickCamara; Settle 0 (Stream 1)] initial in
  streams st = [[live]]%list
  /\ isCameraActive st = false
  /\ bound_stream st = None
  /\ tasks st = nil.
Proof. vm_compute. auto. Qed.

(** C4. In every state the component reaches, at most one submission is in
    flight, and while [isProcessing] a click on [Procesar Documento]
    changes nothing: not the state, not the pending operations, not the
    requests sent. *)
Theorem submit_while_processing_is_noop (evs : list event) :
  let st := run evs initial in
  (in_flight st <= 1)%nat
  /\ (isProcessing st = true ->
      step st ClickProcesar = st
      /\ in_flight st = 1%nat
      /\ requests (step st ClickProcesar) = requests st
      /\ tasks (step st ClickProcesar) = tasks st).
Proof.
  intros st.
  assert (Hsf : single_flight st) by (apply single_flight_run; reflexivity).
  assert (Hr : rendered st) by (apply run_rendered, initial_rendered).
  unfold single_flight in Hsf. split.
  - rewrite Hsf. destruct (isProcessing st); lia.
  - intros Hp. rewrite Hp in Hsf.
    assert (Hstep : step st ClickProcesar = st).
    { unfold step. cbn [handle]. rewrite Hp.
      destruct (selectedFile st); exact Hr. }
    rewrite Hstep. auto.
Qed.

Lemma submit_while_processing_is_noop_witness :
  isProcessing (run submit initial) = true
  /\ step (run submit initial) ClickProcesar = run submit initial
  /\ length (requests (run submit initial)) = 1%nat.
Proof.
  split; [reflexivity|]. split.
  - exact (proj1 (proj2 (submit_while_processing_is_noop submit) eq_refl)).
  - reflexivity.
Defined.

(** C8. At the same input as C1 the failure path does clear the busy flag
    and keep the selected file, with nothing left in flight, but the
    message shown is the generic one although the server sent one. *)
Theorem application_error_recovers_with_generic_message :
  let st := run (submit ++ [Settle 0 (Responded bad_file)]) initial in
  isProcessing st = false
  /\ selectedFile st = Some receipt_preview
  /\ in_flight st = 0%nat
  /\ message bad_file = Some "bad file"
  /\ alerts st = ["Error al procesar el documento"]%list.
Proof. vm_compute. auto 10. Qed.

(** C9. When [getUserMedia] rejects, nothing of the component changes:
    from an idle state the state is idle again, with no stream created, no
    video element bound and no file selected, and the operator is alerted. *)
Theorem camera_denied_stays_idle
  (st : state) (i : nat) (error : thrown) :
  tasks st !! i = Some GetUserMedia ->
  selectedFile st = None -> isProcessing st = false ->
  result st = None -> isCameraActive st = false ->
  let st' := step st (Settle i (Rejected error)) in
  selectedFile st' = None
  /\ isProcessing st' = false
  /\ result st' = None
  /\ isCameraActive st' = false
  /\ videoRef st' = None
  /\ streams st' = streams st
  /\ tasks st' = delete i (tasks st)
  /\ alerts st' = (alerts st ++ ["No se pudo acceder a la cámara"])%list.
Proof.
  intros Hi Hsel Hp Hr Ha st'. subst st'. unfold step. cbn [handle].
  rewrite Hi. cbn [settle].
  match goal with
  | |- context [commit ?x] =>
      destruct (commit_fields x) as (-> & -> & -> & -> & -> & -> & -> & _);
      rewrite (commit_videoRef_inactive x) by exact Ha
  end.
  cbn. auto 10.
Qed.

Lemma camera_denied_stays_idle_witness :
  let st := step initial ClickCamara in
  let st' := step st (Settle 0 (Rejected (Error "Permission denied"))) in
  tasks st = [GetUserMedia]%list
  /\ selectedFile st' = None
  /\ isCameraActive st' = false
  /\ streams st' = nil
  /\ alerts st' = ["No se pudo acceder a la cámara"]%list.
Proof.
  pose proof (camera_denied_stays_idle (step initial ClickCamara) 0
                (Error "Permission denied")
                eq_refl eq_refl eq_refl eq_refl eq_refl) as H.
  cbv zeta in H. destruct H as (Hsel & _ & _ & Ha & _ & Hs & _ & Hal).
  cbv zeta. split; [reflexivity|]. auto.
Defined.

End ControllerClaims.

(** * Capturing a frame *)
Section CaptureClaim.
Import JSNumber JSParse Format Render Controller Examples Session.




End CaptureClaim.

(** * Further properties of the handlers *)
Section SessionFacts.
Import JSNumber JSParse Format Render Controller Examples Session.

Lemma session_commit (st : state) : session (commit st) = session st.
Proof.
  unfold session.
  destruct (commit_fields st) as (-> & -> & -> & _ & _ & -> & -> & ->).
  reflexivity.
Qed.

Lemma session_fields (st : state) :
  session st
  = (selectedFile st, isProcessing st, result st, tasks st, alerts st,
     requests st).
Proof. reflexivity. Qed.

Lemma session_eq_fields st s p r l a q :
  session st = (s, p, r, l, a, q) ->
  selectedFile st = s /\ isProcessing st = p /\ result st = r
  /\ tasks st = l /\ alerts st = a /\ requests st = q.
Proof. unfold session. intros [= -> -> -> -> -> ->]. auto 10. Qed.

Lemma lookup_suffix (A : Type) (l r : list A) (x : A) :
  ((l ++ x :: r)%list) !! length l = Some x.
Proof. apply list_lookup_middle. reflexivity. Qed.

Lemma delete_suffix (A : Type) (l r : list A) (x : A) :
  delete (length l) (l ++ x :: r)%list = (l ++ r)%list.
Proof. induction l as [|a l IH]; cbn; [reflexivity|]. f_equal. exact IH. Qed.

Lemma lookup_suffix_next (A : Type) (l r : list A) (x y : A) :
  ((l ++ x :: y :: r)%list) !! S (length l) = Some y.
Proof.
  change (l ++ x :: y :: r)%list with (l ++ [x] ++ y :: r)%list.
  rewrite app_assoc. apply list_lookup_middle. rewrite length_app. cbn. lia.
Qed.

Lemma delete_suffix_next (A : Type) (l r : list A) (x y : A) :
  delete (S (length l)) (l ++ x :: y :: r)%list = (l ++ x :: r)%list.
Proof. induction l as [|a l IH]; cbn; [reflexivity|]. f_equal. exact IH. Qed.

(** Reads the fields off a hypothesis on [session] and computes. *)
Ltac by_session H :=
  unfold session in H |- *; injection H as ? ? ? ? ? ?; subst;
  cbn; try reflexivity.

Lemma session_click st sel r l a q :
  session st = (Some sel, false, r, l, a, q) ->
  session (step st ClickProcesar)
  = (Some sel, true, r, (l ++ [Fetch sel])%list, a, q).
Proof.
  intros H. unfold step. rewrite session_commit. cbn [handle].
  assert (Hs : selectedFile st = Some sel) by (unfold session in H; congruence).
  assert (Hp : isProcessing st = false) by (unfold session in H; congruence).
  rewrite Hs, Hp. unfold processDocument. rewrite Hs.
  unfold session in H |- *. injection H as ? ? ? ? ? ?. subst. cbn.
  rewrite Hs. reflexivity.
Qed.

Lemma session_file_chosen st f s p r l a q :
  session st = (s, p, r, l, a, q) ->
  session (step st (FileInputChange (Some f)))
  = (s, p, r, (l ++ [ReadAsDataURL f])%list, a, q).
Proof. intros H. unfold step. rewrite session_commit. by_session H. Qed.

Lemma session_settle st i o t k s p r l a q :
  session st = (s, p, r, l, a, q) ->
  l !! i = Some t -> settle t o = Some k ->
  session (step st (Settle i o))
  = session (k (set_tasks (delete i l) st)).
Proof.
  intros H Hi Hk. unfold step. rewrite session_commit. cbn [handle].
  assert (Ht : tasks st = l) by (unfold session in H; congruence).
  rewrite Ht, Hi, Hk. reflexivity.
Qed.

Lemma session_loadend st i f u s p r l a q :
  session st = (s, p, r, l, a, q) ->
  l !! i = Some (ReadAsDataURL f) ->
  session (step st (Settle i (LoadEnd u)))
  = (Some {| name := file_name f; type := file_type f;
             size := formatBytes (of_N (file_size f)); preview := u |},
     p, r, delete i l, a, q).
Proof.
  intros H Hi. rewrite (session_settle st i (LoadEnd u) _ _ _ _ _ _ _ _ H Hi eq_refl).
  by_session H.
Qed.

Lemma session_fetched st i sel s p r l a q :
  session st = (s, p, r, l, a, q) ->
  l !! i = Some (Fetch sel) ->
  session (step st (Settle i Fetched))
  = (s, p, r, (delete i l ++ [ResponseBlob sel])%list, a, q).
Proof.
  intros H Hi. rewrite (session_settle st i Fetched _ _ _ _ _ _ _ _ H Hi eq_refl).
  by_session H.
Qed.

Lemma session_blob st i sel blob s p r l a q :
  session st = (s, p, r, l, a, q) ->
  l !! i = Some (ResponseBlob sel) ->
  let rq := {| url := "http://localhost:3001/documents/upload";
               field_name := "file"; filename := name sel;
               payload := blob |} in
  session (step st (Settle i (BlobRead blob)))
  = (s, p, r, (delete i l ++ [Post rq])%list, a, (q ++ [rq])%list).
Proof.
  intros H Hi rq.
  rewrite (session_settle st i (BlobRead blob) _ _ _ _ _ _ _ _ H Hi eq_refl).
  by_session H.
Qed.

Lemma session_responded st i rq body s p r l a q :
  session st = (s, p, r, l, a, q) ->
  l !! i = Some (Post rq) ->
  strict_eq (status body) "error" = false ->
  session (step st (Settle i (Responded body)))
  = (s, false, Some body, delete i l, a, q).
Proof.
  intros H Hi Hok.
  rewrite (session_settle st i (Responded body) _ _ _ _ _ _ _ _ H Hi eq_refl).
  unfold processDocument_response. rewrite Hok. by_session H.
Qed.

Lemma settle_rejected (t : task) (e : thrown) :
  is_submission t = true ->
  settle t (Rejected e) = Some (processDocument_catch e).
Proof. destruct t; cbn; congruence. Qed.

Lemma session_rejected st i t e s p r l a q :
  session st = (s, p, r, l, a, q) ->
  l !! i = Some t -> is_submission t = true ->
  session (step st (Settle i (Rejected e)))
  = (s, false, r, delete i l, (a ++ [alert_message e])%list, q).
Proof.
  intros H Hi Ht.
  rewrite (session_settle _ _ _ _ _ _ _ _ _ _ _ H Hi (settle_rejected t e Ht)).
  by_session H.
Qed.

End SessionFacts.

Section SessionProperties.
Import JSNumber JSParse Format Render Controller Examples Session.

(** X1. Choosing a file and letting the read finish selects it: name and
    type as the file has them, the size formatted, the preview the data
    URL read. Nothing else of the session changes: a result shown before
    stays, nothing is alerted or sent, and no file type is refused. *)
Theorem chosen_file_becomes_selected (st : state) (f : File) (u : string) :
  let i := length (tasks st) in
  let st' := run [FileInputChange (Some f); Settle i (LoadEnd u)] st in
  selectedFile st'
  = Some {| name := file_name f; type := file_type f;
            size := formatBytes (of_N (file_size f)); preview := u |}
  /\ isProcessing st' = isProcessing st
  /\ result st' = result st
  /\ tasks st' = tasks st
  /\ alerts st' = alerts st
  /\ requests st' = requests st.
Proof.
  intros i st'. subst i st'. cbn [run fold_left].
  pose proof (session_file_chosen st f _ _ _ _ _ _ (session_fields st)) as H1.
  pose proof (session_loadend _ (length (tasks st)) f u _ _ _ _ _ _ H1
                (lookup_suffix _ _ _ _)) as H2.
  rewrite delete_suffix, app_nil_r in H2.
  exact (session_eq_fields _ _ _ _ _ _ _ H2).
Qed.

(** X2. Two files chosen one after the other, the second read finishing
    first: the file selected in the end is the first one, whose read
    finished last. *)
Theorem last_finished_read_wins
  (st : state) (f1 f2 : File) (u1 u2 : string) :
  let i := length (tasks st) in
  let st' :=
    run [FileInputChange (Some f1); FileInputChange (Some f2);
         Settle (S i) (LoadEnd u2); Settle i (LoadEnd u1)] st in
  selectedFile st'
  = Some {| name := file_name f1; type := file_type f1;
            size := formatBytes (of_N (file_size f1)); preview := u1 |}
  /\ tasks st' = tasks st.
Proof.
  intros i st'. subst i st'. cbn [run fold_left].
  pose proof (session_file_chosen st f1 _ _ _ _ _ _ (session_fields st)) as H1.
  pose proof (session_file_chosen _ f2 _ _ _ _ _ _ H1) as H2.
  rewrite <- app_assoc in H2. cbn [app] in H2.
  pose proof (session_loadend _ (S (length (tasks st))) f2 u2 _ _ _ _ _ _ H2
                (lookup_suffix_next _ _ _ _ _)) as H3.
  rewrite delete_suffix_next in H3.
  pose proof (session_loadend _ (length (tasks st)) f1 u1 _ _ _ _ _ _ H3
                (lookup_suffix _ _ _ _)) as H4.
  rewrite delete_suffix, app_nil_r in H4.
  destruct (session_eq_fields _ _ _ _ _ _ _ H4) as (Hs & _ & _ & Ht & _).
  auto.
Qed.

Lemma session_after_submission
  (st : state) (sel : PreviewFile) (blob : Blob) (body : ResponseBody) :
  selectedFile st = Some sel ->
  isProcessing st = false ->
  strict_eq (status body) "error" = false ->
  session
    (run [ClickProcesar; Settle (length (tasks st)) Fetched;
          Settle (length (tasks st)) (BlobRead blob);
          Settle (length (tasks st)) (Responded body)] st)
  = (Some sel, false, Some body, tasks st, alerts st,
     (requests st
      ++ [{| url := "http://localhost:3001/documents/upload";
             field_name := "file"; filename := name sel;
             payload := blob |}])%list).
Proof.
  intros Hs Hp Hok. cbn [run fold_left].
  assert (H0 : session st
               = (Some sel, false, result st, tasks st, alerts st, requests st))
    by (unfold session; rewrite Hs, Hp; reflexivity).
  pose proof (session_click _ _ _ _ _ _ H0) as H1.
  pose proof (session_fetched _ (length (tasks st)) sel _ _ _ _ _ _ H1
                (lookup_suffix _ _ _ _)) as H2.
  rewrite delete_suffix, app_nil_r in H2.
  pose proof (session_blob _ (length (tasks st)) sel blob _ _ _ _ _ _ H2
                (lookup_suffix _ _ _ _)) as H3.
  cbv zeta in H3. rewrite delete_suffix, app_nil_r in H3.
  pose proof (session_responded _ (length (tasks st)) _ body _ _ _ _ _ _ H3
                (lookup_suffix _ _ _ _) Hok) as H4.
  rewrite delete_suffix, app_nil_r in H4. exact H4.
Qed.

(** X3. A submission that goes through: from a selected file and an idle
    button, the click, the two reads and a 2xx response that is not an
    error envelope store the body as the result, clear the busy flag, keep
    the selected file, alert nothing, and have sent one request, to the
    upload URL, in the field [file], under the selected file's name. *)
Theorem successful_submission_stores_result
  (st : state) (sel : PreviewFile) (blob : Blob) (body : ResponseBody) :
  selectedFile st = Some sel ->
  isProcessing st = false ->
  strict_eq (status body) "error" = false ->
  let i := length (tasks st) in
  let st' :=
    run [ClickProcesar; Settle i Fetched; Settle i (BlobRead blob);
         Settle i (Responded body)] st in
  selectedFile st' = Some sel
  /\ isProcessing st' = false
  /\ result st' = Some body
  /\ tasks st' = tasks st
  /\ alerts st' = alerts st
  /\ requests st'
     = (requests st
        ++ [{| url := "http://localhost:3001/documents/upload";
               field_name := "file"; filename := name sel;
               payload := blob |}])%list.
Proof.
  intros Hs Hp Hok i st'. subst i st'.
  exact (session_eq_fields _ _ _ _ _ _ _
           (session_after_submission st sel blob body Hs Hp Hok)).
Qed.

Lemma successful_submission_stores_result_witness :
  let st' :=
    run [ClickProcesar; Settle 0 Fetched; Settle 0 (BlobRead receipt_blob);
         Settle 0 (Responded extracted)] ready in
  result st' = Some extracted
  /\ isProcessing st' = false
  /\ alerts st' = nil.
Proof.
  destruct (successful_submission_stores_result ready receipt_preview
              receipt_blob extracted eq_refl eq_refl eq_refl)
    as (_ & Hp & Hr & _ & Ha & _).
  auto.
Defined.

(** X4. A rejection at any of the three awaits of [processDocument] (the
    fetch of the data URL, the read of its blob, the post) ends the
    submission: the busy flag is cleared, the selected file and the result
    are as before, no request is sent by the failure, and exactly one alert
    is raised, never an empty one. *)
Theorem rejected_submission_recovers
  (st : state) (i : nat) (t : task) (e : thrown) :
  tasks st !! i = Some t ->
  is_submission t = true ->
  let st' := step st (Settle i (Rejected e)) in
  selectedFile st' = selectedFile st
  /\ isProcessing st' = false
  /\ result st' = result st
  /\ tasks st' = delete i (tasks st)
  /\ alerts st' = (alerts st ++ [alert_message e])%list
  /\ requests st' = requests st
  /\ alert_message e <> EmptyString.
Proof.
  intros Hi Ht st'.
  pose proof (session_rejected st i t e _ _ _ _ _ _ (session_fields st) Hi Ht)
    as H.
  destruct (session_eq_fields _ _ _ _ _ _ _ H) as (? & ? & ? & ? & ? & ?).
  auto 10 using alert_message_shown.
Qed.

Lemma rejected_submission_recovers_witness :
  let st := step ready ClickProcesar in
  let st' := step st (Settle 0 (Rejected (Error "Failed to fetch"))) in
  isProcessing st = true
  /\ isProcessing st' = false
  /\ selectedFile st' = selectedFile st
  /\ requests st' = requests st
  /\ alerts st' = (alerts st ++ ["Error al procesar el documento"])%list.
Proof.
  destruct (rejected_submission_recovers (step ready ClickProcesar) 0
              (Fetch receipt_preview) (Error "Failed to fetch")
              eq_refl eq_refl)
    as (Hs & Hp & _ & _ & Ha & Hq & _).
  cbv zeta. split; [reflexivity|]. auto.
Defined.

(** X5. The upload carries the name of the file that was selected when the
    button was clicked: if another file is chosen and read while the
    submission is under way, the request still goes out under the first
    file's name, while the page shows the second file. *)
Theorem upload_keeps_file_of_the_click
  (st : state) (sel : PreviewFile) (f : File) (u : string) (blob : Blob) :
  selectedFile st = Some sel ->
  isProcessing st = false ->
  let i := length (tasks st) in
  let st' :=
    run [ClickProcesar; FileInputChange (Some f); Settle (S i) (LoadEnd u);
         Settle i Fetched; Settle i (BlobRead blob)] st in
  selectedFile st'
  = Some {| name := file_name f; type := file_type f;
            size := formatBytes (of_N (file_size f)); preview := u |}
  /\ requests st'
     = (requests st
        ++ [{| url := "http://localhost:3001/documents/upload";
               field_name := "file"; filename := name sel;
               payload := blob |}])%list.
Proof.
  intros Hs Hp i st'. subst i st'. cbn [run fold_left].
  assert (H0 : session st
               = (Some sel, false, result st, tasks st, alerts st, requests st))
    by (unfold session; rewrite Hs, Hp; reflexivity).
  pose proof (session_click _ _ _ _ _ _ H0) as H1.
  pose proof (session_file_chosen _ f _ _ _ _ _ _ H1) as H2.
  rewrite <- app_assoc in H2. cbn [app] in H2.
  pose proof (session_loadend _ (S (length (tasks st))) f u _ _ _ _ _ _ H2
                (lookup_suffix_next _ _ _ _ _)) as H3.
  rewrite delete_suffix_next in H3.
  pose proof (session_fetched _ (length (tasks st)) sel _ _ _ _ _ _ H3
                (lookup_suffix _ _ _ _)) as H4.
  rewrite delete_suffix, app_nil_r in H4.
  pose proof (session_blob _ (length (tasks st)) sel blob _ _ _ _ _ _ H4
                (lookup_suffix _ _ _ _)) as H5.
  cbv zeta in H5.
  destruct (session_eq_fields _ _ _ _ _ _ _ H5) as (Hsel & _ & _ & _ & _ & Hq).
  auto.
Qed.

Lemma upload_keeps_file_of_the_click_witness :
  let st' :=
    run [ClickProcesar; FileInputChange (Some invoice_pdf);
         Settle 1 (LoadEnd invoice_url); Settle 0 Fetched;
         Settle 0 (BlobRead receipt_blob)] ready in
  (name <$> selectedFile st') = Some "factura.pdf"
  /\ (filename <$> requests st') = ["recibo.jpg"]%list.
Proof.
  destruct (upload_keeps_file_of_the_click ready receipt_preview invoice_pdf
              invoice_url receipt_blob eq_refl eq_refl) as [Hs Hq].
  split; [exact (f_equal (fmap name) Hs)|exact (f_equal (fmap filename) Hq)].
Defined.

End SessionProperties.

Section StepProperties.
Import JSNumber JSParse Format Render Controller Examples Session.

(** X6. The result changes at one kind of event only: a pending post
    settling with a 2xx response that is not an error envelope, and then it
    becomes the body of that response. Choosing another file, capturing,
    failing: all leave the result shown as it was. *)
Theorem result_changes_only_on_success (st : state) (ev : event) :
  result (step st ev) <> result st ->
  exists i rq body,
    ev = Settle i (Responded body)
    /\ tasks st !! i = Some (Post rq)
    /\ strict_eq (status body) "error" = false
    /\ result (step st ev) = Some body.
Proof.
  unfold step.
  destruct (commit_fields (handle ev st)) as (_ & _ & -> & _).
  destruct ev as [| ctx | | file | i o]; cbn [handle].
  - destruct (isCameraActive st); intros H; exfalso; apply H; reflexivity.
  - destruct (isCameraActive st); [|congruence].
    unfold captureImage. destruct (videoRef st) as [v|]; [|congruence].
    destruct ctx, (srcObject v); intros H; exfalso; apply H; reflexivity.
  - destruct (selectedFile st) eqn:Hs; [|congruence].
    destruct (isProcessing st); [congruence|].
    unfold processDocument. rewrite Hs. intros H. exfalso. apply H. reflexivity.
  - destruct file; intros H; exfalso; apply H; reflexivity.
  - destruct (tasks st !! i) as [t|] eqn:Hi; [|congruence].
    destruct t as [ | | f | sel | sel | rq], o as [e | n | b | u | | b | body];
      cbn [settle]; try congruence;
      try (intros H; exfalso; apply H; reflexivity).
    + unfold activateCamera_resolved. cbn.
      destruct (videoRef st); intros H; exfalso; apply H; reflexivity.
    + destruct b; intros H; exfalso; apply H; reflexivity.
    + unfold processDocument_response.
      destruct (strict_eq (status body) "error") eqn:Hok.
      * intros H. exfalso. apply H. reflexivity.
      * intros _. exists i, rq, body. auto.
Qed.

Lemma result_changes_only_on_success_witness :
  exists i rq body,
    Settle 0 (Responded extracted) = Settle i (Responded body)
    /\ [Post rq] !! i = Some (Post rq)
    /\ body = extracted.
Proof.
  pose (rq := {| url := "http://localhost:3001/documents/upload";
                 field_name := "file"; filename := "recibo.jpg";
                 payload := receipt_blob |}).
  pose (st := set_tasks [Post rq] (setIsProcessing true ready)).
  destruct (result_changes_only_on_success st (Settle 0 (Responded extracted)))
    as (i & rq' & body & Hev & Hi & _ & Hr).
  - discriminate.
  - injection Hev as <- <-. exists 0%nat, rq, extracted. auto.
Defined.

End StepProperties.

Section ReachableProperties.
Import JSNumber JSParse Format Render Controller Examples Session.

Lemma processing_selected_handle (ev : event) (st : state) :
  (isProcessing st = true -> is_Some (selectedFile st)) ->
  isProcessing (handle ev st) = true -> is_Some (selectedFile (handle ev st)).
Proof.
  intros Hst.
  destruct ev as [| ctx | | file | i o]; cbn [handle].
  - destruct (isCameraActive st); exact Hst.
  - destruct (isCameraActive st); [|exact Hst].
    unfold captureImage. destruct (videoRef st) as [v|]; [|exact Hst].
    destruct ctx, (srcObject v); exact Hst.
  - destruct (selectedFile st) eqn:Hs; [|rewrite Hs; exact Hst].
    destruct (isProcessing st) eqn:Hp; [rewrite Hs; eauto|].
    unfold processDocument. rewrite Hs. cbn. rewrite Hs. eauto.
  - destruct file; exact Hst.
  - destruct (tasks st !! i) as [t|]; [|exact Hst].
    destruct t as [ | | f | sel | sel | rq], o as [e | n | b | u | | b | body];
      cbn [settle]; try exact Hst; try (cbn; discriminate).
    + unfold activateCamera_resolved. cbn. destruct (videoRef st); exact Hst.
    + destruct b; exact Hst.
    + cbn. eauto.
    + unfold processDocument_response.
      destruct (strict_eq (status body) "error"); cbn; discriminate.
Qed.

(** X8. In every state the component reaches, a submission under way has
    a selected file: the busy flag is never set with no file selected. *)
Theorem processing_has_selected_file (evs : list event) :
  let st := run evs initial in
  isProcessing st = true -> is_Some (selectedFile st).
Proof.
  induction evs as [|ev evs IH] using rev_ind; [discriminate|].
  rewrite run_snoc. cbv zeta in *. unfold step.
  destruct (commit_fields (handle ev (run evs initial))) as (-> & -> & _).
  apply processing_selected_handle, IH.
Qed.

Lemma processing_has_selected_file_witness :
  isProcessing (run [FileInputChange (Some invoice_pdf);
                     Settle 0 (LoadEnd invoice_url); ClickProcesar] initial)
  = true
  /\ is_Some (selectedFile
                (run [FileInputChange (Some invoice_pdf);
                      Settle 0 (LoadEnd invoice_url); ClickProcesar] initial)).
Proof.
  split; [reflexivity|].
  exact (processing_has_selected_file
           [FileInputChange (Some invoice_pdf);
            Settle 0 (LoadEnd invoice_url); ClickProcesar] eq_refl).
Defined.

Lemma count_delete (P : task -> bool) (l : list task) (i : nat) (t : task) :
  l !! i = Some t ->
  length (filter (fun t => P t = true) l)
  = (length (filter (fun t => P t = true) (delete i l))
     + if P t then 1 else 0)%nat.
Proof.
  revert i. induction l as [|a l IH]; intros i Hi; [discriminate|].
  destruct i as [|i]; cbn in Hi.
  - injection Hi as ->. cbn [delete list_delete].
    destruct (P t) eqn:Ht.
    + rewrite filter_cons_True by exact Ht. cbn [length]. lia.
    + rewrite filter_cons_False by (rewrite Ht; discriminate). lia.
  - cbn [delete list_delete]. specialize (IH i Hi).
    destruct (P a) eqn:Ha.
    + rewrite !filter_cons_True by exact Ha. cbn [length]. rewrite IH.
      reflexivity.
    + rewrite !filter_cons_False by (rewrite Ha; discriminate). exact IH.
Qed.

Ltac count_pending :=
  rewrite ?filter_app, ?length_app;
  repeat first [ rewrite filter_cons_True by reflexivity
               | rewrite filter_cons_False by discriminate ];
  rewrite ?filter_nil; cbn [length].

(** One event sends at most one request, and only for an invocation that
    a click started. *)
Lemma uploads_handle (ev : event) (st : state) :
  (length (requests (handle ev st)) + not_yet_posted (handle ev st)
   <= length (requests st) + not_yet_posted st
      + if is_procesar ev then 1 else 0)%nat.
Proof.
  unfold not_yet_posted.
  destruct ev as [| ctx | | file | i o]; cbn [handle is_procesar].
  - destruct (isCameraActive st); cbn; count_pending; lia.
  - destruct (isCameraActive st); [|lia].
    unfold captureImage. destruct (videoRef st) as [v|]; [|lia].
    destruct ctx, (srcObject v); cbn; count_pending; lia.
  - destruct (selectedFile st) eqn:Hs; [|lia].
    destruct (isProcessing st); [lia|].
    unfold processDocument. rewrite Hs. cbn. count_pending. lia.
  - destruct file; cbn; count_pending; lia.
  - destruct (tasks st !! i) as [t|] eqn:Hi; [|lia].
    pose proof (count_delete before_post _ _ _ Hi) as Hd.
    destruct t as [ | | f | sel | sel | rq], o as [e | n | b | u | | b | body];
      cbn [settle]; try lia; cbn [before_post] in Hd;
      try (unfold activateCamera_resolved; destruct (videoRef _));
      try (destruct b as [b|]);
      try (unfold processDocument_response;
           destruct (strict_eq (status body) "error"));
      cbn; count_pending; rewrite ?length_app; cbn [length]; lia.
Qed.

Lemma endpoint_handle (ev : event) (st : state) :
  Forall to_upload_endpoint (requests st) ->
  Forall to_upload_endpoint (requests (handle ev st)).
Proof.
  intros Hst.
  destruct ev as [| ctx | | file | i o]; cbn [handle].
  - destruct (isCameraActive st); exact Hst.
  - destruct (isCameraActive st); [|exact Hst].
    unfold captureImage. destruct (videoRef st) as [v|]; [|exact Hst].
    destruct ctx, (srcObject v); exact Hst.
  - destruct (selectedFile st) eqn:Hs; [|exact Hst].
    destruct (isProcessing st); [exact Hst|].
    unfold processDocument. rewrite Hs. exact Hst.
  - destruct file; exact Hst.
  - destruct (tasks st !! i) as [t|]; [|exact Hst].
    destruct t as [ | | f | sel | sel | rq], o as [e | n | b | u | | b | body];
      cbn [settle]; try exact Hst.
    + unfold activateCamera_resolved. cbn. destruct (videoRef st); exact Hst.
    + destruct b; exact Hst.
    + cbn. apply Forall_app. split; [exact Hst|].
      constructor; [split; reflexivity|constructor].
    + unfold processDocument_response.
      destruct (strict_eq (status body) "error"); exact Hst.
Qed.

Lemma clicks_snoc (evs : list event) (ev : event) :
  clicks (evs ++ [ev])%list
  = (clicks evs + if is_procesar ev then 1 else 0)%nat.
Proof.
  unfold clicks. rewrite filter_app, length_app. f_equal.
  destruct (is_procesar ev) eqn:He.
  - rewrite filter_cons_True by exact He. reflexivity.
  - rewrite filter_cons_False by (rewrite He; discriminate). reflexivity.
Qed.

(** X9. However the events fall, the component has sent no more requests
    than there were clicks on [Procesar Documento], and every request it
    sent went to the upload URL with the payload in the field [file]. *)
Theorem uploads_bounded_by_clicks (evs : list event) :
  let st := run evs initial in
  (length (requests st) <= clicks evs)%nat
  /\ Forall to_upload_endpoint (requests st).
Proof.
  cbv zeta.
  assert (H : (length (requests (run evs initial))
               + not_yet_posted (run evs initial) <= clicks evs)%nat
              /\ Forall to_upload_endpoint (requests (run evs initial))).
  { induction evs as [|ev evs [IH1 IH2]] using rev_ind.
    - split; [cbn; lia|constructor].
    - rewrite run_snoc, clicks_snoc. unfold step, not_yet_posted.
      destruct (commit_fields (handle ev (run evs initial)))
        as (_ & _ & _ & _ & _ & -> & _ & ->).
      split; [|apply endpoint_handle, IH2].
      pose proof (uploads_handle ev (run evs initial)) as Hh.
      unfold not_yet_posted in *. lia. }
  destruct H as [H1 H2]. split; [lia|exact H2].
Qed.

(** X10. In every state the component reaches, the busy flag is clear
    exactly when no invocation of [processDocument] is pending: the button
    is never left disabled with nothing under way, nor enabled during a
    submission. *)
Theorem busy_flag_clear_iff_nothing_pending (evs : list event) :
  let st := run evs initial in
  isProcessing st = false <-> in_flight st = 0%nat.
Proof.
  cbv zeta.
  pose proof (single_flight_run evs initial eq_refl) as H.
  unfold single_flight in H. rewrite H.
  destruct (isProcessing (run evs initial)); split; congruence.
Qed.

Lemma busy_flag_clear_iff_nothing_pending_witness :
  isProcessing (run [ClickProcesar; ClickCamara] initial) = false
  /\ in_flight (run [ClickProcesar; ClickCamara] initial) = 0%nat.
Proof.
  split; [reflexivity|].
  exact (proj1 (busy_flag_clear_iff_nothing_pending
                  [ClickProcesar; ClickCamara]) eq_refl).
Defined.

Lemma no_capture_handle (ev : event) (st : state) :
  camera_unused st ->
  Forall (fun t => t <> ToBlob) (tasks st) ->
  Forall (fun t => t <> ToBlob) (tasks (handle ev st)).
Proof.
  intros (Ha & Hv & _) Hst.
  assert (Happ : forall t, t <> ToBlob ->
            Forall (fun t => t <> ToBlob) (tasks st ++ [t])%list).
  { intros t Ht. apply Forall_app. split; [exact Hst|].
    constructor; [exact Ht|constructor]. }
  destruct ev as [| ctx | | file | i o]; cbn [handle]; rewrite ?Ha.
  - cbn. apply Happ. discriminate.
  - exact Hst.
  - destruct (selectedFile st) eqn:Hs; [|exact Hst].
    destruct (isProcessing st); [exact Hst|].
    unfold processDocument. rewrite Hs. cbn. apply Happ. discriminate.
  - destruct file; [|exact Hst]. cbn. apply Happ. discriminate.
  - destruct (tasks st !! i) as [t|] eqn:Hi; [|exact Hst].
    pose proof (Forall_delete _ _ i Hst) as Hdel.
    assert (Hdapp : forall t, t <> ToBlob ->
              Forall (fun t => t <> ToBlob) (delete i (tasks st) ++ [t])%list).
    { intros t' Ht. apply Forall_app. split; [exact Hdel|].
      constructor; [exact Ht|constructor]. }
    destruct t as [ | | f | sel | sel | rq], o as [e | n | b | u | | b | body];
      cbn [settle]; try exact Hst; try exact Hdel.
    + unfold activateCamera_resolved. cbn. rewrite Hv. exact Hdel.
    + destruct b; cbn; [apply Hdapp; discriminate|exact Hdel].
    + cbn. apply Hdapp. discriminate.
    + cbn. apply Hdapp. discriminate.
    + unfold processDocument_response.
      destruct (strict_eq (status body) "error"); exact Hdel.
Qed.

(** X11. From the initial state the camera never becomes active, whatever
    the operator does and whatever [getUserMedia] answers: the [Capturar]
    button does nothing, no frame is ever being encoded, and every track of
    every stream handed out is still live. *)
Theorem camera_stays_off (evs : list event) :
  let st := run evs initial in
  isCameraActive st = false
  /\ bound_stream st = None
  /\ (forall ctx, step st (ClickCapturar ctx) = st)
  /\ Forall (fun t => t <> ToBlob) (tasks st)
  /\ Forall (Forall (eq live)) (streams st).
Proof.
  cbv zeta.
  assert (Hno : Forall (fun t => t <> ToBlob) (tasks (run evs initial))).
  { induction evs as [|ev evs IH] using rev_ind; [constructor|].
    rewrite run_snoc. unfold step.
    destruct (commit_fields (handle ev (run evs initial)))
      as (_ & _ & _ & _ & _ & -> & _).
    apply no_capture_handle; [apply camera_never_activates|exact IH]. }
  destruct (camera_never_activates evs) as (Ha & Hv & Hs).
  split_and!; auto.
  - unfold bound_stream. rewrite Hv. reflexivity.
  - intros ctx. unfold step. cbn [handle]. rewrite Ha.
    apply run_rendered, initial_rendered.
Qed.

(** X12. A stream whose tracks have all ended stays so: no event, from
    any state, brings a track back to live. *)
Theorem ended_tracks_stay_ended
  (st : state) (evs : list event) (stream : nat) :
  stopped st stream -> stopped (run evs st) stream.
Proof. apply stopped_run. Qed.

Lemma ended_tracks_stay_ended_witness :
  stopped
    (run [ClickCamara; Settle 1 (Stream 2); ClickCamara]
         (step camera_on (ClickCapturar true))) 0.
Proof.
  apply ended_tracks_stay_ended. exists [ended]. split; reflexivity.
Defined.

(** X13. [captureImage] acts on the stream the video element shows and
    on no other: every other stream keeps its tracks as they were, no
    stream is added or removed, and the selected file, the busy flag, the
    result, the alerts and the requests are untouched. *)
Theorem capture_spares_other_streams (st : state) (ctx : bool) (j : nat) :
  bound_stream st <> Some j ->
  let st' := step st (ClickCapturar ctx) in
  streams st' !! j = streams st !! j
  /\ length (streams st') = length (streams st)
  /\ selectedFile st' = selectedFile st
  /\ isProcessing st' = isProcessing st
  /\ result st' = result st
  /\ alerts st' = alerts st
  /\ requests st' = requests st.
Proof.
  intros Hj st'. subst st'. unfold step.
  destruct (commit_fields (handle (ClickCapturar ctx) st))
    as (-> & -> & -> & _ & -> & _ & -> & ->).
  cbn [handle]. destruct (isCameraActive st); [|auto 10].
  unfold captureImage, bound_stream in *.
  destruct (videoRef st) as [v|]; [|auto 10].
  destruct (srcObject v) as [s|] eqn:Hsrc.
  - assert (s <> j) by congruence.
    destruct ctx; cbn; rewrite list_lookup_alter_ne, length_alter by assumption;
      auto 10.
  - destruct ctx; cbn; auto 10.
Qed.

Lemma capture_spares_other_streams_witness :
  let st := set_streams [[live]; [live; live]] camera_on in
  let st' := step st (ClickCapturar true) in
  streams st' !! 1%nat = Some [live; live]
  /\ streams st' !! 0%nat = Some [ended].
Proof.
  destruct (capture_spares_other_streams
              (set_streams [[live]; [live; live]] camera_on) true 1
              ltac:(discriminate)) as (H & _).
  cbv zeta. split; [exact H|reflexivity].
Defined.

End ReachableProperties.

Section RenderProperties.
Import JSNumber JSParse Format Render Controller Examples Session.

Ltac find_label :=
  unfold extracted_section;
  rewrite lookup_field_Elem; simpl (as_field _ _); cbv iota; cbn [app];
  rewrite !lookup_fields_cons, lookup_fields_app, lookup_fields_items;
  cbn; rewrite ?append_empty_r; reflexivity.

Lemma lookup_tipo (ed : ExtractedData) :
  lookup_field "Tipo:" (extracted_section ed) = Some (tipo_documento ed).
Proof. find_label. Qed.

Lemma lookup_razon_social (ed : ExtractedData) :
  lookup_field "Razón Social:" (extracted_section ed)
  = Some (razon_social (emisor ed)).
Proof. find_label. Qed.

Lemma or_string_detected (s d : string) :
  s <> EmptyString -> or_string (Some s) d = s.
Proof. destruct s; [congruence|reflexivity]. Qed.

(** X15. The items table has one row per item, in the order of the items;
    a row shows the quantity as JavaScript prints the number, the
    description as it is, and the unit price as [S/ ] and [toFixed(2)]. *)
Theorem items_table_rows (ed : ExtractedData) :
  length (table_rows ed) = length (items ed)
  /\ forall i item,
       items ed !! i = Some item ->
       exists row,
         table_rows ed !! i = Some row
         /\ cell 0 row = Some (toString (cantidad item))
         /\ cell 1 row = Some (descripcion item)
         /\ cell 2 row = Some ("S/ " ++ toFixed 2 (precio_unitario item)).
Proof.
  rewrite table_rows_items. split; [apply length_map|].
  intros i item Hi. exists (item_row item).
  rewrite list_lookup_fmap, Hi.
  split_and!; cbn; rewrite ?append_empty_r; reflexivity.
Qed.

Lemma items_table_rows_witness :
  exists row,
    table_rows identified_receipt !! 0%nat = Some row
    /\ cell 1 row = Some "pan".
Proof.
  destruct (proj2 (items_table_rows identified_receipt) 0%nat
              {| descripcion := "pan"; cantidad := of_Z 3;
                 precio_unitario := parseFloat "0.35"; otros := nil |}
              eq_refl) as (row & Hrow & _ & Hd & _).
  exists row. split; [exact Hrow|exact Hd].
Defined.

(** X16. What was detected is shown as it is: document type and legal
    name always, and number, issue date, RUC and customer name whenever
    they are non-empty strings. An empty string is taken for missing and
    shows the placeholder. *)
Theorem detected_values_shown_verbatim (ed : ExtractedData) :
  let view := extracted_section ed in
  lookup_field "Tipo:" view = Some (tipo_documento ed)
  /\ lookup_field "Razón Social:" view = Some (razon_social (emisor ed))
  /\ (forall s, s <> EmptyString ->
        (numero ed = Some s -> lookup_field "Número:" view = Some s)
        /\ (fecha_emision ed = Some s ->
            lookup_field "Fecha de Emisión:" view = Some s)
        /\ (ruc (emisor ed) = Some s -> lookup_field "RUC:" view = Some s)
        /\ (nombre (cliente ed) = Some s ->
            lookup_field "Nombre:" view = Some s))
  /\ (numero ed = Some EmptyString ->
      lookup_field "Número:" view = Some "No detectado")
  /\ (fecha_emision ed = Some EmptyString ->
      lookup_field "Fecha de Emisión:" view = Some "No detectada")
  /\ (ruc (emisor ed) = Some EmptyString ->
      lookup_field "RUC:" view = Some "No detectado")
  /\ (nombre (cliente ed) = Some EmptyString ->
      lookup_field "Nombre:" view = Some "No detectado").
Proof.
  cbv zeta. split_and!.
  - apply lookup_tipo.
  - apply lookup_razon_social.
  - intros s Hs. split_and!; intros H.
    + rewrite lookup_numero, H, or_string_detected by exact Hs. reflexivity.
    + rewrite lookup_fecha, H, or_string_detected by exact Hs. reflexivity.
    + rewrite lookup_ruc, H, or_string_detected by exact Hs. reflexivity.
    + rewrite lookup_nombre, H, or_string_detected by exact Hs. reflexivity.
  - intros H. rewrite lookup_numero, H. reflexivity.
  - intros H. rewrite lookup_fecha, H. reflexivity.
  - intros H. rewrite lookup_ruc, H. reflexivity.
  - intros H. rewrite lookup_nombre, H. reflexivity.
Qed.

Lemma detected_values_shown_verbatim_witness :
  lookup_field "Número:" (extracted_section identified_receipt)
  = Some "F001-000123"
  /\ lookup_field "RUC:" (extracted_section identified_receipt)
     = Some "20123456789".
Proof.
  destruct (detected_values_shown_verbatim identified_receipt)
    as (_ & _ & H & _).
  split.
  - apply (H "F001-000123"); [discriminate|reflexivity].
  - apply (H "20123456789"); [discriminate|reflexivity].
Defined.

(** X17. A customer document that is present is shown as its kind, a
    colon and its number; a part that is null is printed as the word
    [null], since the template literal is not guarded. *)
Theorem customer_document_parts (ed : ExtractedData) (d : Documento) :
  documento (cliente ed) = Some d ->
  let shown := lookup_field "Documento:" (extracted_section ed) in
  (forall t n, tipo d = Some t -> doc_numero d = Some n ->
     shown = Some (t ++ ": " ++ n))
  /\ (forall n, tipo d = None -> doc_numero d = Some n ->
        shown = Some ("null: " ++ n))
  /\ (forall t, tipo d = Some t -> doc_numero d = None ->
        shown = Some (t ++ ": null"))
  /\ (tipo d = None -> doc_numero d = None -> shown = Some "null: null").
Proof.
  intros Hd shown. subst shown. rewrite lookup_documento.
  unfold documento_text. rewrite Hd.
  split_and!; intros; repeat match goal with H : _ = _ |- _ => rewrite H end;
    reflexivity.
Qed.

Lemma customer_document_parts_witness :
  lookup_field "Documento:" (extracted_section identified_receipt)
  = Some "DNI: 40506070".
Proof.
  destruct (customer_document_parts identified_receipt dni eq_refl)
    as (H & _).
  exact (H "DNI" "40506070" eq_refl eq_refl).
Defined.

End RenderProperties.

Section FormatProperties.
Import JSNumber JSParse Format Render Controller Examples Session.

(** X18. Below one gibibyte the unit follows the size: [Bytes] below
    1024, [KB] from 1024 up to [2^20], [MB] from there on. *)
Theorem formatBytes_unit_thresholds (b : N) :
  (0 < b < 2 ^ 30)%N ->
  exists n,
    formatBytes (of_N b)
    = n ++ " " ++ (if (b <? 2 ^ 10)%N then "Bytes"
                   else if (b <? 2 ^ 20)%N then "KB" else "MB").
Proof.
  intros Hb. destruct b as [|p]; [lia|].
  assert (Hp53 : Zpos p < 2 ^ 53) by lia.
  destruct (formatBytes_unit (of_N (Npos p)) (of_N_nonzero p Hp53)) as (n & Hn).
  rewrite floor_log1024_of_N in Hn by exact Hp53.
  exists n. rewrite Hn. do 2 f_equal.
  destruct (N.ltb_spec (Npos p) (2 ^ 10)) as [H1|H1];
    [|destruct (N.ltb_spec (Npos p) (2 ^ 20)) as [H2|H2]].
  - assert (0 <= Z.log2 (Zpos p) < 10)
      by (split; [apply Z.log2_nonneg|apply Z.log2_lt_pow2; lia]).
    replace (Z.log2 (Zpos p) / 10) with 0
      by (symmetry; apply Z.div_small; lia).
    reflexivity.
  - assert (10 <= Z.log2 (Zpos p) < 20)
      by (split; [apply Z.log2_le_pow2; lia|apply Z.log2_lt_pow2; lia]).
    replace (Z.log2 (Zpos p) / 10) with 1
      by (apply (Z.div_unique _ 10 1 (Z.log2 (Zpos p) - 10)); lia).
    reflexivity.
  - assert (20 <= Z.log2 (Zpos p) < 30)
      by (split; [apply Z.log2_le_pow2; lia|apply Z.log2_lt_pow2; lia]).
    replace (Z.log2 (Zpos p) / 10) with 2
      by (apply (Z.div_unique _ 10 2 (Z.log2 (Zpos p) - 20)); lia).
    reflexivity.
Qed.

Lemma formatBytes_unit_thresholds_witness :
  exists n, formatBytes (of_N 204800) = n ++ " KB".
Proof.
  exact (formatBytes_unit_thresholds 204800 ltac:(lia)).
Defined.

(** X19. Above one gibibyte and below one tebibyte there is no unit: the
    index into [sizes] is 3, past its last element, and the text ends in
    [undefined]. (In this range the exact quotient of [floor_log1024] is far
    enough from an integer for the engine's quotient to have the same
    floor.) *)
Theorem formatBytes_no_unit_above_one_gigabyte (b : N) :
  (2 ^ 30 < b < 2 ^ 40)%N ->
  floor_log1024 (of_N b) = of_Z 3
  /\ array_get sizes (of_Z 3) = None
  /\ exists n, formatBytes (of_N b) = n ++ " undefined".
Proof.
  intros Hb. split_and!.
  - destruct b as [|p]; [lia|].
    rewrite floor_log1024_of_N by lia. f_equal.
    assert (30 <= Z.log2 (Zpos p) < 40)
      by (split; [apply Z.log2_le_pow2; lia|apply Z.log2_lt_pow2; lia]).
    symmetry. apply (Z.div_unique _ 10 3 (Z.log2 (Zpos p) - 30)); lia.
  - reflexivity.
  - apply formatBytes_unit_from_one_gigabyte. lia.
Qed.

Lemma formatBytes_no_unit_above_one_gigabyte_witness :
  exists n, formatBytes (of_N 5000000000) = n ++ " undefined".
Proof.
  exact (proj2 (proj2 (formatBytes_no_unit_above_one_gigabyte 5000000000
                         ltac:(lia)))).
Defined.

End FormatProperties.

Section MoreFormatProperties.
Import JSNumber JSParse Format Render Controller Examples Session.

(** X20. A whole number of units, from 1 to 1023 of them, is shown as that
    number and the unit, without decimals: [1 KB], [512 MB], [1023 Bytes]. *)
Theorem formatBytes_whole_multiples (k : N) (j : nat) (u : string) :
  (0 < k < 1024)%N ->
  sizes !! j = Some u ->
  formatBytes (of_N (k * 1024 ^ N.of_nat j)) = dec (Z.of_N k) ++ " " ++ u.
Proof.
  intros Hk Hu.
  assert (Hall :
    forallb (fun j =>
      forallb (fun k =>
        String.eqb
          (formatBytes (of_N (N.of_nat k * 1024 ^ N.of_nat j)))
          (dec (Z.of_nat k) ++ " " ++ nth j sizes EmptyString))
        (seq 1 1023))
      (seq 0 3) = true) by (vm_compute; reflexivity).
  rewrite forallb_forall in Hall.
  assert (Hj : (j < 3)%nat) by (apply lookup_lt_Some in Hu; exact Hu).
  specialize (Hall j ltac:(apply in_seq; lia)).
  rewrite forallb_forall in Hall.
  specialize (Hall (N.to_nat k) ltac:(apply in_seq; lia)).
  apply String.eqb_eq in Hall.
  rewrite N2Nat.id, N_nat_Z in Hall. rewrite Hall. do 2 f_equal.
  destruct j as [|[|[|j]]]; cbn in Hu |- *; try congruence; lia.
Qed.

Lemma formatBytes_whole_multiples_witness :
  formatBytes (of_N (512 * 1024 ^ 2)) = "512 MB".
Proof.
  exact (formatBytes_whole_multiples 512 2 "MB" ltac:(lia) eq_refl).
Defined.

(** X21. What [toFixed(2)] writes for a finite Number below [10^21] has
    digits, a point and exactly two digits, and [parseFloat] reads it back
    as the Number closest to the Number's hundredths, rounded to the
    closest, with its sign: the pair [parseFloat(x.toFixed(2))] of
    [formatBytes] rounds to two decimals. *)
Theorem toFixed_reads_back (x : number) :
  fixed_range x = true ->
  two_decimals (toFixed 2 x) = true
  /\ parseFloat (toFixed 2 x)
     = of_decimal match x with S754_finite s _ _ => s | _ => false end
         (round2 (Qabs (to_Q x))) (- 2).
Proof.
  intros Hr. split; [apply toFixed_two_decimals, Hr|].
  destruct x as [s | s | | s m e]; cbn [fixed_range] in Hr; try discriminate.
  - reflexivity.
  - rewrite parseFloat_toFixed by exact Hr.
    rewrite (fixed_digits_round2 s m e). reflexivity.
Qed.

Lemma toFixed_reads_back_witness :
  two_decimals (toFixed 2 (of_Z 7)) = true
  /\ parseFloat (toFixed 2 (of_Z 7)) = of_decimal false 700 (- 2).
Proof.
  exact (toFixed_reads_back (of_Z 7) eq_refl).
Defined.

End MoreFormatProperties.
